(** * GameTraders: order placement, execution, cancellation and scoring

    A shallow embedding of the trading core of [src/app.py]
    ([place_order], [execute_order], [cancel_order], [cancel_all_orders],
    [end_game]).

    Modelling conventions:
    - every table of the database ([Game], [Participant], [Holding], [Order],
      [Transaction]) is a list of records in row order; a query
      [X.query.filter_by(...).first()] is [find] with the filter as a boolean
      predicate, [X.query.get(id)] is [find] on the primary key;
    - mutating the object a query returned is [update_first] with the same
      predicate, so exactly the row the query found is changed;
    - cash and prices are Python floats in the source. The first part
      models them as exact integers [Z] (amounts in the smallest unit,
      rounding not modelled) and is used for the control flow of the
      handlers, the order book and shares. The last part, [FloatModel],
      models them as binary64 floats ([PrimFloat]) with the behaviour of
      Python and SQLite (rounding, overflow to infinity, NaN stored as NULL);
      the properties of cash amounts are proved there;
    - each request handler returns the JSON response together with the state
      that is committed: an early [return] before [db.session.commit()] leaves
      the state unchanged, an uncaught exception ([AttributeError] on a
      missing row) is the error [ECrash] and commits nothing. *)

From Stdlib Require Import String Ascii ZArith List Bool Lia DecimalString Floats.
From Stdlib Require Uint63.
Import ListNotations.
Open Scope Z_scope.

(** ** Rows *)

Record Game := mkGame {
  game_id : string;
  game_status : string;              (* 'active' or 'ended' *)
  player_names : string;             (* comma-separated tradeable entities *)
  scoring_mode : string;             (* outright_winner, final_points, top_positions *)
  include_cash : bool;
  position_values : option (list (string * Z)); (* parsed JSON, None when NULL *)
  game_final_scores : option (list (string * Z));
  winner_id : option string
}.

Record Participant := mkParticipant {
  part_id : string;
  part_game : string;
  part_name : string;
  role : string;                     (* 'player', 'viewer' or 'admin' *)
  access_token : string;
  cash : Z
}.

Record Holding := mkHolding {
  hold_id : Z;
  hold_part : string;
  hold_player : string;
  hold_shares : Z
}.

Record Order := mkOrder {
  order_id : Z;
  order_game : string;
  order_part : string;
  order_type : string;               (* 'buy' or 'sell' *)
  order_player : string;
  price : Z;
  order_shares : Z;
  order_status : string              (* 'open', 'filled' or 'cancelled' *)
}.

Record Transaction := mkTransaction {
  tx_id : Z;
  tx_game : string;
  buyer_id : string;
  seller_id : string;
  tx_player : string;
  tx_price : Z;
  tx_shares : Z
}.

(** The database: one list per table, and the autoincrement counters of the
    integer primary keys. *)
Record State := mkState {
  games : list Game;
  participants : list Participant;
  holdings : list Holding;
  orders : list Order;
  transactions : list Transaction;
  next_holding_id : Z;
  next_order_id : Z;
  next_tx_id : Z
}.

(** Functional record updates of the fields the handlers assign. *)
Definition set_cash (c : Z) (p : Participant) : Participant :=
  mkParticipant (part_id p) (part_game p) (part_name p) (role p) (access_token p) c.

Definition set_hold_shares (n : Z) (h : Holding) : Holding :=
  mkHolding (hold_id h) (hold_part h) (hold_player h) n.

Definition set_order_shares (n : Z) (o : Order) : Order :=
  mkOrder (order_id o) (order_game o) (order_part o) (order_type o)
          (order_player o) (price o) n (order_status o).

Definition set_order_status (st : string) (o : Order) : Order :=
  mkOrder (order_id o) (order_game o) (order_part o) (order_type o)
          (order_player o) (price o) (order_shares o) st.

Definition set_game_end (w : option string) (fs : option (list (string * Z)))
    (g : Game) : Game :=
  mkGame (game_id g) "ended" (player_names g) (scoring_mode g) (include_cash g)
         (position_values g) fs w.

Definition set_orders (os : list Order) (no : Z) (s : State) : State :=
  mkState (games s) (participants s) (holdings s) os (transactions s)
          (next_holding_id s) no (next_tx_id s).

Definition set_games (gs : list Game) (s : State) : State :=
  mkState gs (participants s) (holdings s) (orders s) (transactions s)
          (next_holding_id s) (next_order_id s) (next_tx_id s).

(** ** Queries and in-place mutation *)

(** Mutating the object returned by [filter_by(...).first()]: the first row
    satisfying the filter is replaced by its updated version. *)
Fixpoint update_first {A} (p : A -> bool) (f : A -> A) (l : list A) : list A :=
  match l with
  | [] => []
  | x :: r => if p x then f x :: r else x :: update_first p f r
  end.

Definition by_token (tok : string) (p : Participant) : bool :=
  String.eqb (access_token p) tok.

Definition by_pid (pid : string) (p : Participant) : bool :=
  String.eqb (part_id p) pid.

Definition by_owner_player (pid name : string) (h : Holding) : bool :=
  String.eqb (hold_part h) pid && String.eqb (hold_player h) name.

Definition by_oid (oid : Z) (o : Order) : bool := Z.eqb (order_id o) oid.

Definition by_gid (gid : string) (g : Game) : bool := String.eqb (game_id g) gid.

(** [Participant.query.filter_by(access_token=token).first()] *)
Definition participant_by_token (s : State) (tok : string) : option Participant :=
  find (by_token tok) (participants s).

(** [Participant.query.get(pid)] *)
Definition participant_get (s : State) (pid : string) : option Participant :=
  find (by_pid pid) (participants s).

(** [participant.game] *)
Definition game_get (s : State) (gid : string) : option Game :=
  find (by_gid gid) (games s).

(** [Holding.query.filter_by(participant_id=pid, player_name=name).first()] *)
Definition holding_first (s : State) (pid name : string) : option Holding :=
  find (by_owner_player pid name) (holdings s).

(** [Order.query.get(order_id)] *)
Definition order_get (s : State) (oid : Z) : option Order :=
  find (by_oid oid) (orders s).

Fixpoint sum_Z (l : list Z) : Z :=
  match l with [] => 0 | x :: r => x + sum_Z r end.

(** ** Responses *)

Inductive Err :=
  | EInvalidToken            (* 'Invalid token', 401 *)
  | EGameEnded               (* 'Game has ended' *)
  | EInvalidPriceOrShares    (* 'Invalid price or shares' *)
  | ENotEnoughShares         (* 'Not enough shares...' *)
  | ENotEnoughCash           (* 'Not enough cash...' *)
  | EInvalidOrderType        (* 'Invalid order type' *)
  | EOrderNotAvailable       (* 'Order not available' *)
  | ESelfTrade               (* 'Cannot execute your own order' *)
  | EInvalidNumberOfShares   (* 'Invalid number of shares' *)
  | EOrderTooSmall           (* 'Order only has N shares available' *)
  | ESellerNoLongerHasShares (* 'Seller no longer has shares' (order cancelled) *)
  | EBuyerNoLongerHasCash    (* 'Buyer no longer has cash' (order cancelled) *)
  | EOrderNotFound           (* 'Order not found', 404 *)
  | EOrderCannotBeCancelled  (* 'Order cannot be cancelled' *)
  | EForbidden               (* 'Only admin can end the game', 403 *)
  | EGameAlreadyEnded        (* 'Game already ended' *)
  | ECrash.                  (* uncaught exception: nothing committed *)

Inductive Resp :=
  | ROk                          (* {'success': True} *)
  | ROrderId (oid : Z)           (* {'success': True, 'order_id': id} *)
  | RCount (n : Z)               (* {'success': True, 'cancelled_count': n} *)
  | RWinner (w : option string)  (* {'success': True, 'winner': ...} *)
  | RErr (e : Err).

(** ** Encumbrance: resources committed by open orders *)

(** [Order.query.filter_by(participant_id=pid, player_name=name,
    order_type='sell', status='open').all()] *)
Definition is_open_sell (pid name : string) (o : Order) : bool :=
  String.eqb (order_part o) pid && String.eqb (order_player o) name
  && String.eqb (order_type o) "sell" && String.eqb (order_status o) "open".

Definition open_sell_orders (s : State) (pid name : string) : list Order :=
  filter (is_open_sell pid name) (orders s).

(** [Order.query.filter_by(participant_id=pid, status='open',
    order_type='buy').all()] *)
Definition is_open_buy (pid : string) (o : Order) : bool :=
  String.eqb (order_part o) pid && String.eqb (order_status o) "open"
  && String.eqb (order_type o) "buy".

Definition open_buy_orders (s : State) (pid : string) : list Order :=
  filter (is_open_buy pid) (orders s).

(** [committed_shares = sum(order.shares for order in open_sell_orders)] *)
Definition committed_shares (s : State) (pid name : string) : Z :=
  sum_Z (map order_shares (open_sell_orders s pid name)).

(** [committed_cash = sum(order.price * order.shares for order in open_buy_orders)] *)
Definition committed_cash (s : State) (pid : string) : Z :=
  sum_Z (map (fun o => price o * order_shares o) (open_buy_orders s pid)).

(** [holding.shares if holding else 0] *)
Definition held_shares (s : State) (pid name : string) : Z :=
  match holding_first s pid name with Some h => hold_shares h | None => 0 end.

(** The [available_shares] and [available_cash] of [place_order]. *)
Definition available_shares (s : State) (pid name : string) : Z :=
  held_shares s pid name - committed_shares s pid name.

Definition available_cash (s : State) (p : Participant) : Z :=
  cash p - committed_cash s (part_id p).

(** ** [place_order] *)

Definition insert_order (s : State) (o : Order) : State :=
  set_orders (orders s ++ [o]) (next_order_id s + 1) s.

Definition place_order (s : State) (tok otype pname : string) (pr shares : Z)
    : Resp * State :=
  match participant_by_token s tok with
  | None => (RErr EInvalidToken, s)
  | Some p =>
    match game_get s (part_game p) with
    | None => (RErr ECrash, s)
    | Some g =>
      if String.eqb (game_status g) "ended" then (RErr EGameEnded, s) else
      if (pr <=? 0) || (shares <=? 0) then (RErr EInvalidPriceOrShares, s) else
      let new_order := mkOrder (next_order_id s) (game_id g) (part_id p) otype
                               pname pr shares "open" in
      if String.eqb otype "sell" then
        if available_shares s (part_id p) pname <? shares
        then (RErr ENotEnoughShares, s)
        else (ROrderId (next_order_id s), insert_order s new_order)
      else if String.eqb otype "buy" then
        if available_cash s p <? pr * shares
        then (RErr ENotEnoughCash, s)
        else (ROrderId (next_order_id s), insert_order s new_order)
      else (RErr EInvalidOrderType, s)
    end
  end.

(** ** [execute_order] *)

(** [shares_to_execute]: the requested quantity, [order.shares] when absent. *)
Definition resolve_qty (qarg : option Z) (o : Order) : Z :=
  match qarg with None => order_shares o | Some q => q end.

(** [order.status = 'cancelled'; db.session.commit()] *)
Definition cancel_in (oid : Z) (s : State) : State :=
  set_orders (update_first (by_oid oid) (set_order_status "cancelled") (orders s))
             (next_order_id s) s.

Definition add_cash (d : Z) (p : Participant) : Participant := set_cash (cash p + d) p.

Definition add_hold_shares (d : Z) (h : Holding) : Holding :=
  set_hold_shares (hold_shares h + d) h.

(** [order.shares -= n; if order.shares == 0: order.status = 'filled'] *)
Definition reduce_order (n : Z) (o : Order) : Order :=
  let o' := set_order_shares (order_shares o - n) o in
  if Z.eqb (order_shares o') 0 then set_order_status "filled" o' else o'.

(** The settlement block, identical in both branches of [execute_order]:
    cash transfer, seller holding decrement, buyer holding find-or-create,
    transaction record, order reduction. *)
Definition settle (s : State) (g : Game) (oid : Z) (o : Order)
    (buyer seller : Participant) (q : Z) : State :=
  let total := price o * q in
  let ps1 := update_first (by_pid (part_id buyer)) (add_cash (- total)) (participants s) in
  let ps2 := update_first (by_pid (part_id seller)) (add_cash total) ps1 in
  let hs1 := update_first (by_owner_player (part_id seller) (order_player o))
                          (add_hold_shares (- q)) (holdings s) in
  let '(hs2, nh) :=
    match find (by_owner_player (part_id buyer) (order_player o)) hs1 with
    | Some _ => (update_first (by_owner_player (part_id buyer) (order_player o))
                              (add_hold_shares q) hs1, next_holding_id s)
    | None => (hs1 ++ [mkHolding (next_holding_id s) (part_id buyer) (order_player o) q],
               next_holding_id s + 1)
    end in
  let tx := mkTransaction (next_tx_id s) (game_id g) (part_id buyer) (part_id seller)
                          (order_player o) (price o) q in
  let os := update_first (by_oid oid) (reduce_order q) (orders s) in
  mkState (games s) ps2 hs2 os (transactions s ++ [tx]) nh (next_order_id s)
          (next_tx_id s + 1).

Definition execute_order (s : State) (tok : string) (oid : Z) (qarg : option Z)
    : Resp * State :=
  match participant_by_token s tok with
  | None => (RErr EInvalidToken, s)
  | Some p =>
    match order_get s oid with
    | None => (RErr EOrderNotAvailable, s)
    | Some o =>
      if negb (String.eqb (order_status o) "open") then (RErr EOrderNotAvailable, s) else
      if String.eqb (order_part o) (part_id p) then (RErr ESelfTrade, s) else
      match game_get s (part_game p) with
      | None => (RErr ECrash, s)
      | Some g =>
        if String.eqb (game_status g) "ended" then (RErr EGameEnded, s) else
        let q := resolve_qty qarg o in
        if q <=? 0 then (RErr EInvalidNumberOfShares, s) else
        if order_shares o <? q then (RErr EOrderTooSmall, s) else
        let creator := participant_get s (order_part o) in
        let total := price o * q in
        if String.eqb (order_type o) "sell" then
          (* someone is selling, the participant is buying *)
          if cash p <? total then (RErr ENotEnoughCash, s) else
          match creator with
          | None => (RErr ECrash, s)
          | Some seller =>
            match holding_first s (part_id seller) (order_player o) with
            | Some h =>
              if hold_shares h <? q then (RErr ESellerNoLongerHasShares, cancel_in oid s)
              else (ROk, settle s g oid o p seller q)
            | None => (RErr ESellerNoLongerHasShares, cancel_in oid s)
            end
          end
        else
          (* someone wants to buy, the participant is selling *)
          match holding_first s (part_id p) (order_player o) with
          | None => (RErr ENotEnoughShares, s)
          | Some h =>
            if hold_shares h <? q then (RErr ENotEnoughShares, s) else
            match creator with
            | None => (RErr ECrash, s)
            | Some buyer =>
              if cash buyer <? total then (RErr EBuyerNoLongerHasCash, cancel_in oid s)
              else (ROk, settle s g oid o buyer p q)
            end
          end
      end
    end
  end.

(** ** [cancel_order] and [cancel_all_orders] *)

Definition cancel_order (s : State) (tok : string) (oid : Z) : Resp * State :=
  match participant_by_token s tok with
  | None => (RErr EInvalidToken, s)
  | Some p =>
    match order_get s oid with
    | None => (RErr EOrderNotFound, s)
    | Some o =>
      if negb (String.eqb (order_part o) (part_id p)) then (RErr EOrderNotFound, s) else
      if negb (String.eqb (order_status o) "open") then (RErr EOrderCannotBeCancelled, s)
      else (ROk, cancel_in oid s)
    end
  end.

(** The filter of [cancel_all_orders]: the participant's open orders, of the
    given type when [order_type in ['buy', 'sell']]. *)
Definition cancel_all_sel (pid otype : string) (o : Order) : bool :=
  String.eqb (order_part o) pid && String.eqb (order_status o) "open"
  && (if String.eqb otype "buy" || String.eqb otype "sell"
      then String.eqb (order_type o) otype else true).

Definition cancel_matching (sel : Order -> bool) (os : list Order) : list Order :=
  map (fun o => if sel o then set_order_status "cancelled" o else o) os.

Definition cancel_all_orders (s : State) (tok otype : string) : Resp * State :=
  match participant_by_token s tok with
  | None => (RErr EInvalidToken, s)
  | Some p =>
    let sel := cancel_all_sel (part_id p) otype in
    let count := Z.of_nat (length (filter sel (orders s))) in
    (RCount count, set_orders (cancel_matching sel (orders s)) (next_order_id s) s)
  end.

(** ** [end_game] and scoring *)

(** [d.get(k, default)] on a JSON object, as an association list. *)
Definition assoc_get {V} (k : string) (d : list (string * V)) (default : V) : V :=
  match find (fun kv => String.eqb (fst kv) k) d with
  | Some kv => snd kv
  | None => default
  end.

(** [p.holdings] *)
Definition holdings_of (s : State) (pid : string) : list Holding :=
  filter (fun h => String.eqb (hold_part h) pid) (holdings s).

(** The loop [if total_value > max_value: max_value = total_value; winner = p]
    with [max_value = -1] and [winner = None] initially. *)
Definition pick_winner (value : Participant -> Z) (ps : list Participant)
    : option Participant :=
  snd (fold_left (fun acc q => let v := value q in
                    if fst acc <? v then (v, Some q) else acc)
                 ps (-1, None)).

(** [outright_winner]: shares held in [winning_player]. *)
Definition outright_value (s : State) (winning_player : string) (p : Participant) : Z :=
  held_shares s (part_id p) winning_player.

(** [final_points]: [total_value += holding.shares * final_scores.get(name, 0)]
    over [p.holdings], then [+ p.cash] if [game.include_cash]. *)
Definition final_points_value (s : State) (g : Game) (final_scores : list (string * Z))
    (p : Participant) : Z :=
  let total := fold_left (fun acc h => acc + hold_shares h
                                            * assoc_get (hold_player h) final_scores 0)
                         (holdings_of s (part_id p)) 0 in
  if include_cash g then total + cash p else total.

(** [top_positions]: the position is [str(final_positions.get(name, 999))],
    its value [position_values.get(position, 0)]. *)
Definition top_positions_value (s : State) (g : Game) (pv : list (string * Z))
    (final_positions : list (string * string)) (p : Participant) : Z :=
  let total := fold_left (fun acc h =>
                   let position := assoc_get (hold_player h) final_positions "999"%string in
                   acc + hold_shares h * assoc_get position pv 0)
                 (holdings_of s (part_id p)) 0 in
  if include_cash g then total + cash p else total.

Definition end_game (s : State) (tok winning_player : string)
    (final_scores : list (string * Z)) (final_positions : list (string * string))
    : Resp * State :=
  match participant_by_token s tok with
  | None => (RErr EInvalidToken, s)
  | Some p =>
    if negb (String.eqb (role p) "admin") then (RErr EForbidden, s) else
    match game_get s (part_game p) with
    | None => (RErr ECrash, s)
    | Some g =>
      if String.eqb (game_status g) "ended" then (RErr EGameAlreadyEnded, s) else
      let gid := game_id g in
      (* Order.query.filter_by(game_id=game.id, status='open').update(...) *)
      let s1 := set_orders (cancel_matching (fun o => String.eqb (order_game o) gid
                                                     && String.eqb (order_status o) "open")
                                            (orders s))
                           (next_order_id s) s in
      let players := filter (fun q => String.eqb (part_game q) gid
                                      && String.eqb (role q) "player")
                            (participants s1) in
      let finish (w : option Participant) (fs : option (list (string * Z))) :=
        let wid := option_map part_id w in
        (RWinner (option_map part_name w),
         set_games (update_first (by_gid gid) (set_game_end wid fs) (games s1)) s1) in
      if String.eqb (scoring_mode g) "outright_winner" then
        finish (pick_winner (outright_value s1 winning_player) players)
               (game_final_scores g)
      else if String.eqb (scoring_mode g) "final_points" then
        finish (pick_winner (final_points_value s1 g final_scores) players)
               (Some final_scores)
      else if String.eqb (scoring_mode g) "top_positions" then
        match position_values g with
        | None => (RErr ECrash, s)   (* json.loads(None) raises *)
        | Some pv =>
          finish (pick_winner (top_positions_value s1 g pv final_positions) players)
                 (game_final_scores g)
        end
      else finish None (game_final_scores g)
    end
  end.

(** ** Tradeable entities of a game *)

(** [c.isspace()] for a character of code point below 256 (a character of a
    string is read as its Latin-1 code point): tab, line feed, vertical tab,
    form feed, carriage return, the separators 0x1c to 0x1f, space, next line
    (0x85) and no-break space (0xa0). Code points from 256 on are not
    modelled. *)
Definition is_space (c : ascii) : bool :=
  match nat_of_ascii c with
  | 9 | 10 | 11 | 12 | 13 | 28 | 29 | 30 | 31 | 32 | 133 | 160 => true
  | _ => false
  end%nat.

Fixpoint lstrip (x : string) : string :=
  match x with
  | EmptyString => EmptyString
  | String c r => if is_space c then lstrip r else x
  end.

Definition rev_string (x : string) : string :=
  string_of_list_ascii (rev (list_ascii_of_string x)).

(** [x.strip()] *)
Definition strip (x : string) : string := rev_string (lstrip (rev_string (lstrip x))).

(** [x.split(',')] *)
Fixpoint split_comma (x : string) : list string :=
  match x with
  | EmptyString => [EmptyString]
  | String c r =>
    match split_comma r with
    | [] => [String c EmptyString]
    | cur :: rest => if Ascii.eqb c ","%char then EmptyString :: cur :: rest
                     else String c cur :: rest
    end
  end.

(** [[p.strip() for p in game.player_names.split(',') if p.strip()]] *)
Definition game_entities (g : Game) : list string :=
  filter (fun x => negb (String.eqb x EmptyString)) (map strip (split_comma (player_names g))).

(** ** [create_game] *)

(** [str(n)] for a natural number. *)
Definition nat_str (n : nat) : string := NilZero.string_of_uint (Nat.to_uint n).

(** The fields of the creation form, as [create_game] reads them (after
    [int(...)] / [float(...)], with the form's defaults applied);
    [position i] is [data.get(f'position_{i}', '0')]. *)
Record CreateForm := mkCreateForm {
  num_players : Z;
  form_player_names : string;
  num_viewers : Z;
  form_scoring_mode : string;
  form_include_cash : bool;
  position : nat -> Z;
  distribution_mode : string;
  initial_cash : Z;
  initial_shares : Z;
  own_shares_amount : Z;
  player_cash : Z;
  viewer_cash : Z
}.

(** [player_names_list = [p.strip() for p in player_names.split(',') if p.strip()]] *)
Definition parse_names (player_names : string) : list string :=
  filter (fun x => negb (String.eqb x EmptyString)) (map strip (split_comma player_names)).

(** The holdings rows [Holding(participant_id, player_name, shares)] in
    creation order, numbered by the autoincrement primary key. *)
Fixpoint number_rows (n : Z) (rows : list (string * string * Z)) : list Holding :=
  match rows with
  | [] => []
  | (pid, name, sh) :: r => mkHolding n pid name sh :: number_rows (n + 1) r
  end.

(** [create_game] (POST). [gid] and [admin_tok] are the [uuid4] values of
    [Game.id] and [Game.admin_token]; [fresh k] is the [(id, access_token)]
    pair drawn for the [k]-th participant created (players first, then
    viewers, then the admin, whose id is drawn as well but whose token is
    the game's admin token). [None] is the error page rendered when too few
    names are given: nothing is committed. *)
Definition create_game (s : State) (gid admin_tok : string) (fresh : nat -> string * string)
    (f : CreateForm) : option State :=
  let names := parse_names (form_player_names f) in
  if Z.of_nat (length names) <? num_players f then None else
  let pv := if String.eqb (form_scoring_mode f) "top_positions"
            then Some (map (fun i => (nat_str i, position f i)) (seq 1 (length names)))
            else None in
  let g := mkGame gid "active" (form_player_names f) (form_scoring_mode f)
                  (form_include_cash f) pv None None in
  let np := Z.to_nat (num_players f) in
  let nv := Z.to_nat (num_viewers f) in
  let mk (k : nat) (name r : string) (c : Z) :=
    mkParticipant (fst (fresh k)) gid name r (snd (fresh k)) c in
  let '(ps, rows) :=
    if String.eqb (distribution_mode f) "even" then
      let players := map (fun i => mk i (String.append "Player " (nat_str (S i))) "player"%string (initial_cash f))
                         (seq 0 np) in
      let viewers := map (fun j => mk (np + j)%nat (String.append "Viewer " (nat_str (S j))) "viewer"%string
                                      (initial_cash f)) (seq 0 nv) in
      (players ++ viewers,
       flat_map (fun p => map (fun name => (part_id p, name, initial_shares f)) names)
                (players ++ viewers))
    else
      let own i := nth_error names i in
      let players :=
        map (fun i => mk i (String.append "Player " (String.append (nat_str (S i))
                              match own i with
                              | Some o => String.append " (" (String.append o ")")
                              | None => EmptyString
                              end))
                         "player"%string (player_cash f)) (seq 0 np) in
      let viewers := map (fun j => mk (np + j)%nat (String.append "Viewer " (nat_str (S j))) "viewer"%string
                                      (viewer_cash f)) (seq 0 nv) in
      (players ++ viewers,
       flat_map (fun i => match own i with
                          | Some o => if String.eqb o "" then []
                                      else [(fst (fresh i), o, own_shares_amount f)]
                          | None => []
                          end) (seq 0 np))
    in
  let admin := mkParticipant (fst (fresh (np + nv)%nat)) gid "Admin" "admin" admin_tok 0 in
  Some (mkState (games s ++ [g]) (participants s ++ ps ++ [admin])
                (holdings s ++ number_rows (next_holding_id s) rows) (orders s)
                (transactions s) (next_holding_id s + Z.of_nat (length rows))
                (next_order_id s) (next_tx_id s)).

(** ** Further queries and invariants *)

(** [Transaction.query.filter_by(game_id=game.id).all()] *)
Definition game_transactions (s : State) (gid : string) : list Transaction :=
  filter (fun t => String.eqb (tx_game t) gid) (transactions s).

(** [market_overview]: [total_trades = len(all_transactions)],
    [total_volume = sum(t.shares for t in all_transactions)] and
    [active_players = len(player_names)]; [None] for an invalid token. *)
Definition market_overview (s : State) (tok : string) : option (Z * Z * Z) :=
  match participant_by_token s tok with
  | None => None
  | Some r =>
    match game_get s (part_game r) with
    | None => None
    | Some g =>
      let all := game_transactions s (game_id g) in
      Some (Z.of_nat (length all), sum_Z (map tx_shares all),
            Z.of_nat (length (game_entities g)))
    end
  end.

(** [lstrip] on the characters of a string. *)
Fixpoint drop_space (l : list ascii) : list ascii :=
  match l with
  | [] => []
  | c :: r => if is_space c then drop_space r else l
  end.

(** The shares of entity [e] in a row [(owner, name, shares)] to be created. *)
Definition row_measure (e : string) (r : string * string * Z) : Z :=
  if String.eqb (snd (fst r)) e then snd r else 0.

(** Order ids are a key of the order table and lie below the next id to be
    given out. *)
Definition order_ids_ok (s : State) : Prop :=
  NoDup (map order_id (orders s)) /\
  forall i, In i (map order_id (orders s)) -> i < next_order_id s.

(** Every recorded trade has two different sides. *)
Definition no_self_trades (s : State) : Prop :=
  forall t, In t (transactions s) -> buyer_id t <> seller_id t.

(** ** Concrete databases used by the examples below *)

Module Demo.

Definition gA : Game :=
  mkGame "gA" "active" "Alice, Bob" "final_points" true None None None.
Definition gB : Game :=
  mkGame "gB" "active" "Carol" "outright_winner" false None None None.

Definition pA : Participant := mkParticipant "pA" "gA" "Player 1" "player" "tokA" 100.
Definition pB : Participant := mkParticipant "pB" "gA" "Player 2" "player" "tokB" 0.
Definition pC : Participant := mkParticipant "pC" "gB" "Player 1" "player" "tokC" 0.
Definition pD : Participant := mkParticipant "pD" "gA" "Viewer 1" "viewer" "tokD" 10.
Definition adm : Participant := mkParticipant "adm" "gA" "Admin" "admin" "tokAdm" 0.

(** pA: 10 x Alice at 10 to buy; pB: 5 x Bob at 10 to sell, all of its Bob;
    pC (in game gB): 4 x Carol at 2 to sell, all of its Carol. *)
Definition s_trade : State :=
  mkState [gA; gB] [pA; pB; pC; pD; adm]
          [mkHolding 1 "pB" "Bob" 5; mkHolding 2 "pC" "Carol" 4]
          [mkOrder 1 "gA" "pA" "buy" "Alice" 10 10 "open";
           mkOrder 2 "gA" "pB" "sell" "Bob" 10 5 "open";
           mkOrder 3 "gB" "pC" "sell" "Carol" 2 4 "open"]
          [] 3 4 1.

(** As [s_trade], with a sell order of pB for 3 Alice shares it does not hold. *)
Definition s_stale : State :=
  set_orders (orders s_trade ++ [mkOrder 4 "gA" "pB" "sell" "Alice" 20 3 "open"])
             5 s_trade.

(** Scenario D: a player with 3 Alice, 4 Bob and 50 cash. *)
Definition pE : Participant := mkParticipant "pE" "gA" "Player 1" "player" "tokE" 50.
Definition s_score : State :=
  mkState [gA] [pE; adm] [mkHolding 1 "pE" "Alice" 3; mkHolding 2 "pE" "Bob" 4]
          [] [] 3 1 1.

Definition scores_D : list (string * Z) := [("Alice", 10); ("Bob", 2)]%string.

(** As [s_trade], with game gA already ended (its orders left open). *)
Definition gA_ended : Game :=
  mkGame "gA" "ended" "Alice, Bob" "final_points" true None None None.
Definition s_ended : State := set_games [gA_ended; gB] s_trade.

(** Creation forms: two players and one viewer over the names Dan and Eve. *)
Definition form_even : CreateForm :=
  mkCreateForm 2 "Dan, Eve" 1 "final_points" true (fun _ => 0) "even" 1000 10 0 0 0.
Definition form_own : CreateForm :=
  mkCreateForm 2 " Dan,, Eve " 1 "top_positions" false (fun i => Z.of_nat (10 - i))
               "own" 0 0 100 500 200.
Definition form_three : CreateForm :=
  mkCreateForm 3 "Dan, Eve" 0 "final_points" true (fun _ => 0) "even" 1000 10 0 0 0.

(** [secrets.token_urlsafe] stand-in: distinct ids and tokens. *)
Definition fresh_ids (k : nat) : string * string :=
  (String.append "q" (nat_str k), String.append "t" (nat_str k)).

Definition created (f : CreateForm) : State :=
  match create_game s_trade "gN" "tokN" fresh_ids f with
  | Some s => s
  | None => s_trade
  end.

End Demo.

Import Demo.

Example ex_entities : game_entities gA = ["Alice"; "Bob"]%string.
Proof. reflexivity. Qed.
Example ex_avail : available_cash s_trade pA = 0.
Proof. reflexivity. Qed.
Example ex_exec_ok : fst (execute_order s_trade "tokA" 2 (Some 5)) = ROk.
Proof. reflexivity. Qed.
Example ex_exec_cross : fst (execute_order s_trade "tokA" 3 (Some 2)) = ROk.
Proof. reflexivity. Qed.
Example ex_place_B : fst (place_order s_trade "tokB" "sell" "Bob" 3 1) = RErr ENotEnoughShares.
Proof. reflexivity. Qed.
Example ex_place_Zed : fst (place_order s_trade "tokD" "buy" "Zed" 1 1) = ROrderId 4.
Proof. reflexivity. Qed.
Example ex_both_fail : execute_order s_stale "tokD" 4 None = (RErr ENotEnoughCash, s_stale).
Proof. reflexivity. Qed.
Example ex_score : final_points_value s_score gA scores_D pE = 88.
Proof. reflexivity. Qed.
Example ex_end : fst (end_game s_score "tokAdm" "" scores_D []) = RWinner (Some "Player 1"%string).
Proof. reflexivity. Qed.

(** ** General facts about [find] and [update_first] *)

Section UpdateFirst.
Context {A : Type}.
Implicit Types (p q : A -> bool) (f : A -> A) (l : list A).

Lemma find_In_true p l x : find p l = Some x -> In x l /\ p x = true.
Proof. apply find_some. Qed.

Lemma find_existsb p l x : find p l = Some x -> existsb p l = true.
Proof.
  intros H. apply find_some in H as [Hin Hp].
  apply existsb_exists. eauto.
Qed.

Lemma find_none_existsb p l : find p l = None -> existsb p l = false.
Proof.
  induction l as [|a l IH]; simpl; auto.
  destruct (p a); [discriminate|auto].
Qed.


Lemma map_update_first {B} (m : A -> B) p f l :
  (forall x, m (f x) = m x) -> map m (update_first p f l) = map m l.
Proof.
  intros Hm. induction l as [|a l IH]; simpl; auto.
  destruct (p a); simpl; now rewrite ?Hm, ?IH.
Qed.

Lemma existsb_update_first q p f l :
  (forall x, q (f x) = q x) -> existsb q (update_first p f l) = existsb q l.
Proof.
  intros Hq. induction l as [|a l IH]; simpl; auto.
  destruct (p a); simpl; now rewrite ?Hq, ?IH.
Qed.

Lemma find_update_first_same p f l :
  (forall x, p x = true -> p (f x) = true) ->
  find p (update_first p f l) = option_map f (find p l).
Proof.
  intros Hp. induction l as [|a l IH]; simpl; auto.
  destruct (p a) eqn:Ha; simpl.
  - now rewrite (Hp a Ha).
  - now rewrite Ha.
Qed.

(** Updating the first match of [p] adds [c] to a sum measured by [m]
    when a match exists. *)
Lemma sum_update_first (m : A -> Z) p f c l :
  (forall x, p x = true -> m (f x) = m x + c) ->
  sum_Z (map m (update_first p f l)) = sum_Z (map m l) + (if existsb p l then c else 0).
Proof.
  intros Hm. induction l as [|a l IH]; simpl; [lia|].
  destruct (p a) eqn:Ha; simpl.
  - rewrite (Hm a Ha). lia.
  - rewrite IH. lia.
Qed.

End UpdateFirst.

Lemma sum_Z_app l1 l2 : sum_Z (l1 ++ l2) = sum_Z l1 + sum_Z l2.
Proof. induction l1; simpl; lia. Qed.

Lemma sum_Z_nonneg_le {A} (m : A -> Z) l x :
  (forall y, In y l -> 0 <= m y) -> In x l -> m x <= sum_Z (map m l).
Proof.
  induction l as [|a l IH]; simpl; [tauto|].
  intros Hn [<-|Hin].
  - assert (0 <= sum_Z (map m l)).
    { clear IH. induction l as [|b l IHl]; simpl; [lia|].
      assert (0 <= m b) by (apply Hn; simpl; auto).
      assert (0 <= sum_Z (map m l)) by (apply IHl; intros y Hy; apply Hn; simpl in *; tauto).
      lia. }
    lia.
  - assert (0 <= m a) by (apply Hn; auto). specialize (IH (fun y Hy => Hn y (or_intror Hy)) Hin). lia.
Qed.

(** Turning the boolean tests of a path into propositions. *)
Ltac bool_facts :=
  repeat match goal with
  | H : negb _ = false |- _ => apply negb_false_iff in H
  | H : negb _ = true |- _ => apply negb_true_iff in H
  | H : String.eqb _ _ = true |- _ => apply String.eqb_eq in H
  | H : String.eqb _ _ = false |- _ => apply String.eqb_neq in H
  | H : Z.leb _ _ = true |- _ => apply Z.leb_le in H
  | H : Z.leb _ _ = false |- _ => apply Z.leb_gt in H
  | H : Z.ltb _ _ = true |- _ => apply Z.ltb_lt in H
  | H : Z.ltb _ _ = false |- _ => apply Z.ltb_ge in H
  | H : (_ || _)%bool = false |- _ => apply orb_false_iff in H as [? ?]
  | H : (_ && _)%bool = true |- _ => apply andb_true_iff in H as [? ?]
  end.

(** Splitting a handler into its paths: every [match] and [if] of the
    hypothesis [H] is case-analysed. *)
Ltac split_paths H :=
  cbv zeta in H;
  repeat match type of H with
  | context [match ?x with _ => _ end] => let E := fresh "E" in destruct x eqn:E
  end.

(** ** Share totals *)

Definition entity_measure (e : string) (h : Holding) : Z :=
  if String.eqb (hold_player h) e then hold_shares h else 0.

Definition total_shares (s : State) (e : string) : Z :=
  sum_Z (map (entity_measure e) (holdings s)).

Lemma add_hold_shares_measure pid e d x :
  by_owner_player pid e x = true ->
  entity_measure e (add_hold_shares d x) = entity_measure e x + d.
Proof.
  unfold by_owner_player, entity_measure. intros H.
  apply andb_true_iff in H as [_ H]. simpl. rewrite H. reflexivity.
Qed.

Lemma settle_conserves_shares s g oid o buyer seller q :
  existsb (by_owner_player (part_id seller) (order_player o)) (holdings s) = true ->
  total_shares (settle s g oid o buyer seller q) (order_player o)
  = total_shares s (order_player o).
Proof.
  intros Hh. unfold settle, total_shares.
  set (hs1 := update_first _ _ (holdings s)).
  assert (Hhs1 : sum_Z (map (entity_measure (order_player o)) hs1)
                 = sum_Z (map (entity_measure (order_player o)) (holdings s)) - q).
  { unfold hs1. rewrite (sum_update_first _ _ _ (- q)), Hh; [lia|].
    apply add_hold_shares_measure. }
  destruct (find (by_owner_player (part_id buyer) (order_player o)) hs1) eqn:F;
    cbn [holdings].
  - rewrite (sum_update_first _ _ _ q) by apply add_hold_shares_measure.
    rewrite (find_existsb _ _ _ F). lia.
  - rewrite map_app, sum_Z_app. simpl. unfold entity_measure at 2. simpl.
    rewrite String.eqb_refl. lia.
Qed.

(** The tables written by [settle], besides holdings. *)
Lemma settle_tables s g oid o buyer seller q :
  let s' := settle s g oid o buyer seller q in
  participants s' =
    update_first (by_pid (part_id seller)) (add_cash (price o * q))
      (update_first (by_pid (part_id buyer)) (add_cash (- (price o * q)))
         (participants s)) /\
  orders s' = update_first (by_oid oid) (reduce_order q) (orders s) /\
  transactions s' = transactions s ++
    [mkTransaction (next_tx_id s) (game_id g) (part_id buyer) (part_id seller)
                   (order_player o) (price o) q].
Proof.
  unfold settle. simpl.
  destruct (find _ _); simpl; auto.
Qed.

Lemma by_oid_reduce_order oid q x : by_oid oid (reduce_order q x) = by_oid oid x.
Proof. unfold reduce_order. destruct (_ =? 0); reflexivity. Qed.

Lemma order_get_settle s g oid o buyer seller q :
  order_get (settle s g oid o buyer seller q) oid
  = option_map (reduce_order q) (order_get s oid).
Proof.
  unfold order_get. destruct (settle_tables s g oid o buyer seller q) as (_ & -> & _).
  apply find_update_first_same. intros x Hx. now rewrite by_oid_reduce_order.
Qed.

(** Facts every successful execution establishes: the order was open, the
    quantity was positive and within the order, and the new state is the
    settlement of the order between the resolved buyer and seller. *)
Lemma execute_order_ok_inv s tok oid qarg s' o :
  order_get s oid = Some o ->
  execute_order s tok oid qarg = (ROk, s') ->
  exists p g buyer seller h,
    participant_by_token s tok = Some p /\
    game_get s (part_game p) = Some g /\
    order_status o = "open"%string /\
    order_part o <> part_id p /\
    0 < resolve_qty qarg o <= order_shares o /\
    participant_get s (order_part o) =
      Some (if String.eqb (order_type o) "sell" then seller else buyer) /\
    (if String.eqb (order_type o) "sell" then buyer = p else seller = p) /\
    price o * resolve_qty qarg o <= cash buyer /\
    holding_first s (part_id seller) (order_player o) = Some h /\
    resolve_qty qarg o <= hold_shares h /\
    s' = settle s g oid o buyer seller (resolve_qty qarg o).
Proof.
  intros Ho H. unfold execute_order in H. rewrite Ho in H.
  split_paths H; try discriminate; injection H as <-.
  - exists p, g, p, p0, h. bool_facts. repeat split; auto; lia.
  - exists p, g, p0, p, h. bool_facts. repeat split; auto; lia.
Qed.

(** C6: a successful partial fill ([qty] below the order's remaining
    quantity) leaves the order open with its quantity reduced by exactly
    [qty], and appends exactly one transaction of [qty] shares at the resting
    order's price. *)
Theorem execute_partial_fill s tok oid qarg s' o :
  order_get s oid = Some o ->
  execute_order s tok oid qarg = (ROk, s') ->
  resolve_qty qarg o < order_shares o ->
  (exists o', order_get s' oid = Some o' /\
              order_status o' = "open"%string /\
              order_shares o' = order_shares o - resolve_qty qarg o /\
              price o' = price o /\ order_player o' = order_player o) /\
  (exists tx, transactions s' = transactions s ++ [tx] /\
              tx_shares tx = resolve_qty qarg o /\
              tx_price tx = price o /\ tx_player tx = order_player o).
Proof.
  intros Ho H Hlt.
  destruct (execute_order_ok_inv _ _ _ _ _ _ Ho H)
    as (p & g & buyer & seller & h & _ & _ & Hopen & _ & Hq & _ & _ & _ & _ & _ & ->).
  split.
  - rewrite order_get_settle, Ho. simpl.
    eexists; split; [reflexivity|].
    unfold reduce_order. simpl.
    destruct (Z.eqb_spec (order_shares o - resolve_qty qarg o) 0); [lia|].
    simpl. auto.
  - destruct (settle_tables s g oid o buyer seller (resolve_qty qarg o)) as (_ & _ & ->).
    eexists; split; [reflexivity|]. simpl. auto.
Qed.

(** C1 (as the code does it): a successful execution has checked the raw
    balances: the buyer's cash covers [price * qty] and the seller's first
    [Holding] row for the entity holds at least [qty] shares. Buyer and seller
    are the acceptor and the order's owner, by the order's side. *)
Theorem execute_order_checks_raw_balances s tok oid qarg s' o p :
  participant_by_token s tok = Some p ->
  order_get s oid = Some o ->
  execute_order s tok oid qarg = (ROk, s') ->
  exists buyer seller h,
    (if String.eqb (order_type o) "sell"
     then buyer = p /\ participant_get s (order_part o) = Some seller
     else seller = p /\ participant_get s (order_part o) = Some buyer) /\
    price o * resolve_qty qarg o <= cash buyer /\
    holding_first s (part_id seller) (order_player o) = Some h /\
    resolve_qty qarg o <= hold_shares h.
Proof.
  intros Hp Ho H.
  destruct (execute_order_ok_inv _ _ _ _ _ _ Ho H)
    as (p' & g & buyer & seller & h & Hp' & _ & _ & _ & _ & Hc & Hside & Hcash & Hh & Hq & _).
  rewrite Hp in Hp'. injection Hp' as <-.
  exists buyer, seller, h. repeat split; auto.
  destruct (String.eqb (order_type o) "sell"); auto.
Qed.

(** The two resource checks of [execute_order], on the acceptor's side and on
    the order owner's side. *)
Definition acceptor_check (s : State) (o : Order) (p : Participant) (q : Z) : bool :=
  if String.eqb (order_type o) "sell" then price o * q <=? cash p
  else match holding_first s (part_id p) (order_player o) with
       | Some h => q <=? hold_shares h
       | None => false
       end.

Definition owner_check (s : State) (o : Order) (c : Participant) (q : Z) : bool :=
  if String.eqb (order_type o) "sell" then
    match holding_first s (part_id c) (order_player o) with
    | Some h => q <=? hold_shares h
    | None => false
    end
  else price o * q <=? cash c.

Lemma order_get_cancel_in s oid o :
  order_get s oid = Some o ->
  order_get (cancel_in oid s) oid = Some (set_order_status "cancelled" o).
Proof.
  intros Ho. unfold order_get, cancel_in in *. simpl.
  rewrite find_update_first_same; [now rewrite Ho|]. auto.
Qed.

(** C3 (as the code does it): the acceptor's check comes first. When it
    fails the call answers 'Not enough cash' / 'Not enough shares' and
    commits nothing; when it passes and the owner's check fails the order is
    cancelled and the call answers 'Seller no longer has shares' / 'Buyer no
    longer has cash'. *)
Theorem execute_order_failed_checks s tok oid qarg p o g c :
  participant_by_token s tok = Some p ->
  order_get s oid = Some o ->
  order_status o = "open"%string ->
  order_part o <> part_id p ->
  game_get s (part_game p) = Some g ->
  game_status g <> "ended"%string ->
  0 < resolve_qty qarg o <= order_shares o ->
  participant_get s (order_part o) = Some c ->
  (acceptor_check s o p (resolve_qty qarg o) = false ->
   execute_order s tok oid qarg =
     (RErr (if String.eqb (order_type o) "sell" then ENotEnoughCash else ENotEnoughShares), s)) /\
  (acceptor_check s o p (resolve_qty qarg o) = true ->
   owner_check s o c (resolve_qty qarg o) = false ->
   execute_order s tok oid qarg =
     (RErr (if String.eqb (order_type o) "sell" then ESellerNoLongerHasShares
            else EBuyerNoLongerHasCash), cancel_in oid s) /\
   order_get (cancel_in oid s) oid = Some (set_order_status "cancelled" o)).
Proof.
  intros Hp Ho Hopen Hself Hg Hact Hq Hc.
  assert (Hexec : execute_order s tok oid qarg =
    (if String.eqb (order_type o) "sell" then
       if cash p <? price o * resolve_qty qarg o then (RErr ENotEnoughCash, s) else
       match holding_first s (part_id c) (order_player o) with
       | Some h => if hold_shares h <? resolve_qty qarg o
                   then (RErr ESellerNoLongerHasShares, cancel_in oid s)
                   else (ROk, settle s g oid o p c (resolve_qty qarg o))
       | None => (RErr ESellerNoLongerHasShares, cancel_in oid s)
       end
     else
       match holding_first s (part_id p) (order_player o) with
       | None => (RErr ENotEnoughShares, s)
       | Some h =>
         if hold_shares h <? resolve_qty qarg o then (RErr ENotEnoughShares, s) else
         if cash c <? price o * resolve_qty qarg o
         then (RErr EBuyerNoLongerHasCash, cancel_in oid s)
         else (ROk, settle s g oid o c p (resolve_qty qarg o))
       end)).
  { unfold execute_order. rewrite Hp, Ho, Hopen, Hg. simpl.
    destruct (String.eqb_spec (order_part o) (part_id p)); [contradiction|].
    destruct (String.eqb_spec (game_status g) "ended"); [contradiction|].
    destruct (Z.leb_spec (resolve_qty qarg o) 0); [lia|].
    destruct (Z.ltb_spec (order_shares o) (resolve_qty qarg o)); [lia|].
    rewrite Hc. reflexivity. }
  rewrite Hexec. unfold acceptor_check, owner_check.
  destruct (String.eqb (order_type o) "sell").
  - destruct (Z.leb_spec (price o * resolve_qty qarg o) (cash p));
      destruct (Z.ltb_spec (cash p) (price o * resolve_qty qarg o)); try lia;
      split; intros; try discriminate; auto.
    destruct (holding_first s (part_id c) (order_player o)) as [h|].
    + destruct (Z.leb_spec (resolve_qty qarg o) (hold_shares h));
        destruct (Z.ltb_spec (hold_shares h) (resolve_qty qarg o)); try lia;
        try discriminate; auto using order_get_cancel_in.
    + auto using order_get_cancel_in.
  - destruct (holding_first s (part_id p) (order_player o)) as [h|].
    + destruct (Z.leb_spec (resolve_qty qarg o) (hold_shares h));
        destruct (Z.ltb_spec (hold_shares h) (resolve_qty qarg o)); try lia;
        split; intros; try discriminate; auto.
      destruct (Z.leb_spec (price o * resolve_qty qarg o) (cash c));
        destruct (Z.ltb_spec (cash c) (price o * resolve_qty qarg o)); try lia;
        try discriminate; auto using order_get_cancel_in.
    + split; intros; [reflexivity|discriminate].
Qed.

(** ** Operations *)

(** The request handlers that commit changes to the trading state. *)
Inductive Op :=
  | OpPlace (tok otype pname : string) (pr shares : Z)
  | OpExecute (tok : string) (oid : Z) (qarg : option Z)
  | OpCancel (tok : string) (oid : Z)
  | OpCancelAll (tok otype : string)
  | OpEndGame (tok winning_player : string) (final_scores : list (string * Z))
              (final_positions : list (string * string)).

Definition run (s : State) (op : Op) : Resp * State :=
  match op with
  | OpPlace tok ot pn pr sh => place_order s tok ot pn pr sh
  | OpExecute tok oid qarg => execute_order s tok oid qarg
  | OpCancel tok oid => cancel_order s tok oid
  | OpCancelAll tok ot => cancel_all_orders s tok ot
  | OpEndGame tok wp fs fp => end_game s tok wp fs fp
  end.


(** Case analysis on the paths of a handler in the goal. *)
Ltac split_goal_paths :=
  cbv zeta;
  repeat match goal with
  | |- context [match ?x with _ => _ end] => let E := fresh "E" in destruct x eqn:E
  end.

(** Closing a goal [In x l] or a universally quantified goal over a concrete
    list by enumeration. *)
Ltac enum_In H :=
  simpl in H; repeat destruct H as [H|H]; subst; try contradiction.

(** C1 as stated fails: pA's cash of 100 is entirely committed to its open
    buy order, so its available cash is 0, yet accepting pB's sell order for
    5 shares at 10 (cost 50) succeeds: the execution checks raw cash only. *)
Lemma execute_order_ignores_encumbrance :
  available_cash s_trade pA < 10 * 5 /\
  option_map price (order_get s_trade 2) = Some 10 /\
  fst (execute_order s_trade "tokA" 2 (Some 5)) = ROk.
Proof. repeat split; reflexivity. Qed.

(** C3 as stated fails: pB's sell order 4 is stale (pB holds no Alice
    share) and the acceptor pD cannot pay; the acceptor's check is made first,
    so the call answers 'Not enough cash', commits nothing and the stale order
    stays open. *)
Lemma execute_order_stale_not_cancelled :
  owner_check s_stale (mkOrder 4 "gA" "pB" "sell" "Alice" 20 3 "open") pB 3 = false /\
  acceptor_check s_stale (mkOrder 4 "gA" "pB" "sell" "Alice" 20 3 "open") pD 3 = false /\
  execute_order s_stale "tokD" 4 None = (RErr ENotEnoughCash, s_stale) /\
  option_map order_status (order_get s_stale 4) = Some "open"%string.
Proof. repeat split; reflexivity. Qed.

Lemma fold_left_add_sum {A} (f : A -> Z) l a :
  fold_left (fun acc x => acc + f x) l a = a + sum_Z (map f l).
Proof.
  revert a. induction l as [|x l IH]; intros a; simpl; [lia|].
  rewrite IH. lia.
Qed.

(** C8 (as the code computes it): under [final_points] the value of a
    participant is the sum over its holdings of shares times the supplied
    score (0 when none is supplied), plus its cash iff [include_cash]; for
    3 Alice and 4 Bob shares, scores Alice 10 and Bob 2 and 50 cash it is
    3*10 + 4*2 + 50 = 88. *)
Theorem final_points_value_spec :
  (forall s g final_scores p,
     final_points_value s g final_scores p =
       sum_Z (map (fun h => hold_shares h * assoc_get (hold_player h) final_scores 0)
                  (holdings_of s (part_id p)))
       + (if include_cash g then cash p else 0)) /\
  (scoring_mode gA = "final_points"%string /\ include_cash gA = true /\
   final_points_value s_score gA scores_D pE = 88).
Proof.
  split.
  - intros s g fs p. unfold final_points_value.
    rewrite (fold_left_add_sum (fun h => hold_shares h * assoc_get (hold_player h) fs 0)).
    destruct (include_cash g); lia.
  - repeat split.
Qed.

(** C8 as stated fails: the participant of Scenario D is valued at 88, not
    108. *)
Lemma final_points_value_not_108 :
  final_points_value s_score gA scores_D pE <> 108.
Proof. vm_compute. discriminate. Qed.

(** C9: [execute_order] looks the order up by id alone; pA of game gA
    executes pC's open sell order of game gB, and cash and Carol shares move
    between the two games. *)
Theorem execute_order_cross_game :
  option_map part_game (participant_by_token s_trade "tokA") = Some "gA"%string /\
  option_map order_game (order_get s_trade 3) = Some "gB"%string /\
  fst (execute_order s_trade "tokA" 3 (Some 2)) = ROk /\
  option_map cash (participant_get (snd (execute_order s_trade "tokA" 3 (Some 2))) "pA")
    = Some 96 /\
  option_map cash (participant_get (snd (execute_order s_trade "tokA" 3 (Some 2))) "pC")
    = Some 4 /\
  held_shares (snd (execute_order s_trade "tokA" 3 (Some 2))) "pA" "Carol" = 2.
Proof. repeat split; reflexivity. Qed.

(** C10: [place_order] does not check the entity name against the game's
    tradeable entities; pD's buy order for "Zed", not an entity of gA, is
    inserted open. *)
Theorem place_order_unknown_entity :
  game_entities gA = ["Alice"; "Bob"]%string /\
  ~ In "Zed"%string (game_entities gA) /\
  place_order s_trade "tokD" "buy" "Zed" 1 1 =
    (ROrderId 4, insert_order s_trade (mkOrder 4 "gA" "pD" "buy" "Zed" 1 1 "open")).
Proof.
  split; [reflexivity|]. split; [|reflexivity].
  simpl. intuition discriminate.
Qed.

(** ** Witnesses: the theorems above applied at concrete inputs *)

Definition o2 : Order := mkOrder 2 "gA" "pB" "sell" "Bob" 10 5 "open".
Definition o4 : Order := mkOrder 4 "gA" "pB" "sell" "Alice" 20 3 "open".

Lemma execute_order_checks_raw_balances_witness :
  exists buyer seller h,
    (if String.eqb (order_type o2) "sell"
     then buyer = pA /\ participant_get s_trade (order_part o2) = Some seller
     else seller = pA /\ participant_get s_trade (order_part o2) = Some buyer) /\
    price o2 * resolve_qty (Some 5) o2 <= cash buyer /\
    holding_first s_trade (part_id seller) (order_player o2) = Some h /\
    resolve_qty (Some 5) o2 <= hold_shares h.
Proof.
  apply (execute_order_checks_raw_balances s_trade "tokA" 2 (Some 5)
           (snd (execute_order s_trade "tokA" 2 (Some 5))) o2 pA);
    reflexivity.
Defined.

Lemma execute_order_failed_checks_witness :
  (acceptor_check s_stale o4 pD (resolve_qty None o4) = false ->
   execute_order s_stale "tokD" 4 None =
     (RErr (if String.eqb (order_type o4) "sell" then ENotEnoughCash else ENotEnoughShares),
      s_stale)) /\
  (acceptor_check s_stale o4 pD (resolve_qty None o4) = true ->
   owner_check s_stale o4 pB (resolve_qty None o4) = false ->
   execute_order s_stale "tokD" 4 None =
     (RErr (if String.eqb (order_type o4) "sell" then ESellerNoLongerHasShares
            else EBuyerNoLongerHasCash), cancel_in 4 s_stale) /\
   order_get (cancel_in 4 s_stale) 4 = Some (set_order_status "cancelled" o4)).
Proof.
  apply (execute_order_failed_checks s_stale "tokD" 4 None pD o4 gA pB);
    try reflexivity; try discriminate; simpl; lia.
Defined.

Lemma execute_partial_fill_witness :
  let s' := snd (execute_order s_trade "tokA" 2 (Some 3)) in
  (exists o', order_get s' 2 = Some o' /\
              order_status o' = "open"%string /\
              order_shares o' = order_shares o2 - resolve_qty (Some 3) o2 /\
              price o' = price o2 /\ order_player o' = order_player o2) /\
  (exists tx, transactions s' = transactions s_trade ++ [tx] /\
              tx_shares tx = resolve_qty (Some 3) o2 /\
              tx_price tx = price o2 /\ tx_player tx = order_player o2).
Proof.
  apply (execute_partial_fill s_trade "tokA" 2 (Some 3)); try reflexivity.
Defined.

(** * Further properties of the handlers *)

Section UpdateFirstMore.
Context {A : Type}.

Lemma find_update_first_other (p q : A -> bool) f l :
  (forall x, p x = true -> q x = false) ->
  (forall x, p x = true -> q (f x) = false) ->
  find q (update_first p f l) = find q l.
Proof.
  intros H1 H2. induction l as [|a l IH]; simpl; auto.
  destruct (p a) eqn:Ha; simpl.
  - now rewrite (H1 a Ha), (H2 a Ha).
  - destruct (q a); auto.
Qed.


Lemma find_app_nomatch (p : A -> bool) l m :
  (forall y, In y l -> p y = false) -> find p (l ++ m) = find p m.
Proof.
  intros H. induction l as [|a l IH]; simpl; auto.
  rewrite (H a (or_introl eq_refl)). apply IH. intros y Hy. apply H. now right.
Qed.

Lemma update_first_nomatch (p : A -> bool) f l :
  (forall y, In y l -> p y = false) -> update_first p f l = l.
Proof.
  intros H. induction l as [|a l IH]; simpl; auto.
  rewrite (H a (or_introl eq_refl)), IH; auto.
  intros y Hy. apply H. now right.
Qed.

End UpdateFirstMore.

Lemma by_oid_other oid oid' x : oid' <> oid -> by_oid oid x = true -> by_oid oid' x = false.
Proof. unfold by_oid. intros Hne H. apply Z.eqb_eq in H. apply Z.eqb_neq. congruence. Qed.

(** The orders of a state other than [oid] are unaffected by [cancel_in oid]. *)
Lemma order_get_cancel_in_other s oid oid' :
  oid' <> oid -> order_get (cancel_in oid s) oid' = order_get s oid'.
Proof.
  intros Hne. unfold order_get, cancel_in. simpl.
  apply find_update_first_other; intros x Hx; apply (by_oid_other oid); auto.
Qed.

(** [cancel_order] answers 'Order not found' and commits nothing both when
    the order does not exist and when it belongs to someone else: ownership
    is not distinguished from non-existence. *)
Theorem cancel_order_not_owner s tok oid p :
  participant_by_token s tok = Some p ->
  (forall o, order_get s oid = Some o -> order_part o <> part_id p) ->
  cancel_order s tok oid = (RErr EOrderNotFound, s).
Proof.
  intros Hp Hown. unfold cancel_order. rewrite Hp.
  destruct (order_get s oid) as [o|] eqn:Ho; auto.
  specialize (Hown o eq_refl).
  destruct (String.eqb_spec (order_part o) (part_id p)); [contradiction|reflexivity].
Qed.

(** Cancelling an order a second time is rejected with 'Order cannot be
    cancelled' and commits nothing: a cancelled order is not open. *)
Theorem cancel_order_twice s tok oid s' :
  cancel_order s tok oid = (ROk, s') ->
  cancel_order s' tok oid = (RErr EOrderCannotBeCancelled, s').
Proof.
  unfold cancel_order. intros H.
  destruct (participant_by_token s tok) as [p|] eqn:Hp; [|discriminate].
  destruct (order_get s oid) as [o|] eqn:Ho; [|discriminate].
  destruct (String.eqb_spec (order_part o) (part_id p)) as [Hown|]; simpl in H; [|discriminate].
  destruct (String.eqb (order_status o) "open"); simpl in H; [|discriminate].
  injection H as <-.
  replace (participant_by_token (cancel_in oid s) tok) with (Some p) by (symmetry; exact Hp).
  rewrite (order_get_cancel_in _ _ _ Ho). simpl.
  rewrite Hown, String.eqb_refl. reflexivity.
Qed.

(** A successful [cancel_order] sets the order's status to cancelled and
    changes nothing else: the other orders, participants, holdings,
    transactions and games are as before. *)
Theorem cancel_order_only_cancels s tok oid s' :
  cancel_order s tok oid = (ROk, s') ->
  (exists o, order_get s oid = Some o /\ order_status o = "open"%string /\
             order_get s' oid = Some (set_order_status "cancelled" o)) /\
  (forall oid', oid' <> oid -> order_get s' oid' = order_get s oid') /\
  participants s' = participants s /\ holdings s' = holdings s /\
  transactions s' = transactions s /\ games s' = games s.
Proof.
  unfold cancel_order. intros H.
  destruct (participant_by_token s tok) as [p|] eqn:Hp; [|discriminate].
  destruct (order_get s oid) as [o|] eqn:Ho; [|discriminate].
  destruct (String.eqb (order_part o) (part_id p)); simpl in H; [|discriminate].
  destruct (String.eqb_spec (order_status o) "open"); simpl in H; [|discriminate].
  injection H as <-.
  split; [exists o; auto using order_get_cancel_in|].
  split; [intros; now apply order_get_cancel_in_other|].
  repeat split.
Qed.


Lemma cancel_all_sel_cancelled pid ot x :
  cancel_all_sel pid ot (set_order_status "cancelled" x) = false.
Proof. unfold cancel_all_sel. simpl. now rewrite andb_false_r, andb_false_l. Qed.

Lemma cancel_matching_nomatch sel l :
  (forall o, In o l -> sel o = false) -> cancel_matching sel l = l.
Proof.
  intros H. induction l as [|a l IH]; simpl; auto.
  rewrite (H a (or_introl eq_refl)), IH; auto.
  intros o Ho. apply H. now right.
Qed.

Lemma filter_cancel_matching_other pid ot l :
  filter (fun o => negb (String.eqb (order_part o) pid))
         (cancel_matching (cancel_all_sel pid ot) l) =
  filter (fun o => negb (String.eqb (order_part o) pid)) l.
Proof.
  induction l as [|a l IH]; simpl; auto.
  destruct (cancel_all_sel pid ot a) eqn:Ha; simpl.
  - unfold cancel_all_sel in Ha. bool_facts. subst. rewrite String.eqb_refl. simpl. exact IH.
  - now rewrite IH.
Qed.

(** [cancel_all_orders] answers the number of the caller's open orders it
    selects; afterwards none of the caller's orders is selected any more
    (with a filter other than 'buy' or 'sell', such as 'all', none of the
    caller's orders is open), and the orders of every other participant are
    as before. *)
Theorem cancel_all_orders_effect s tok ot p n s' :
  participant_by_token s tok = Some p ->
  cancel_all_orders s tok ot = (RCount n, s') ->
  n = Z.of_nat (length (filter (cancel_all_sel (part_id p) ot) (orders s))) /\
  (forall o, In o (orders s') -> cancel_all_sel (part_id p) ot o = false) /\
  (ot <> "buy"%string -> ot <> "sell"%string ->
   forall o, In o (orders s') -> order_part o = part_id p -> order_status o <> "open"%string) /\
  filter (fun o => negb (String.eqb (order_part o) (part_id p))) (orders s') =
  filter (fun o => negb (String.eqb (order_part o) (part_id p))) (orders s).
Proof.
  intros Hp H. unfold cancel_all_orders in H. rewrite Hp in H. injection H as <- <-.
  assert (Hnone : forall o, In o (cancel_matching (cancel_all_sel (part_id p) ot) (orders s)) ->
                            cancel_all_sel (part_id p) ot o = false).
  { intros o Ho. unfold cancel_matching in Ho. apply in_map_iff in Ho as (x & <- & _).
    destruct (cancel_all_sel (part_id p) ot x) eqn:Hx; auto using cancel_all_sel_cancelled. }
  split; [reflexivity|]. split; [exact Hnone|]. split.
  - intros Hb Hs o Ho Hown Hopen. specialize (Hnone o Ho).
    unfold cancel_all_sel in Hnone.
    apply String.eqb_neq in Hb. apply String.eqb_neq in Hs.
    rewrite Hb, Hs, Hown, Hopen, !String.eqb_refl in Hnone. discriminate.
  - apply filter_cancel_matching_other.
Qed.

(** [cancel_all_orders] is idempotent: right after a call, the same call
    answers a count of 0 and leaves the state as it is. *)
Theorem cancel_all_orders_idempotent s tok ot n s' :
  cancel_all_orders s tok ot = (RCount n, s') ->
  cancel_all_orders s' tok ot = (RCount 0, s').
Proof.
  unfold cancel_all_orders. intros H.
  destruct (participant_by_token s tok) as [p|] eqn:Hp; [|discriminate].
  injection H as _ <-.
  replace (participant_by_token _ tok) with (Some p) by (symmetry; exact Hp).
  set (sel := cancel_all_sel (part_id p) ot).
  assert (Hnone : forall o, In o (cancel_matching sel (orders s)) -> sel o = false).
  { intros o Ho. unfold cancel_matching in Ho. apply in_map_iff in Ho as (x & <- & _).
    destruct (sel x) eqn:Hx; auto. apply cancel_all_sel_cancelled. }
  simpl. rewrite (cancel_matching_nomatch sel (cancel_matching sel (orders s)) Hnone).
  assert (Hf : filter sel (cancel_matching sel (orders s)) = []).
  { induction (cancel_matching sel (orders s)) as [|a l IH]; simpl; auto.
    rewrite (Hnone a (or_introl eq_refl)). apply IH. intros o Ho. apply Hnone. now right. }
  rewrite Hf. reflexivity.
Qed.

(** [execute_order] refuses, committing nothing, an order that does not
    exist or is not open ('Order not available'), and an open order of the
    caller's own ('Cannot trade with yourself'). *)
Theorem execute_order_rejects_unavailable_or_own s tok oid qarg p :
  participant_by_token s tok = Some p ->
  ((forall o, order_get s oid = Some o -> order_status o <> "open"%string) ->
   execute_order s tok oid qarg = (RErr EOrderNotAvailable, s)) /\
  (forall o, order_get s oid = Some o -> order_status o = "open"%string ->
   order_part o = part_id p -> execute_order s tok oid qarg = (RErr ESelfTrade, s)).
Proof.
  intros Hp. unfold execute_order. rewrite Hp. split.
  - intros Hn. destruct (order_get s oid) as [o|]; auto.
    specialize (Hn o eq_refl). apply String.eqb_neq in Hn. now rewrite Hn.
  - intros o Ho Hst Hown. rewrite Ho, Hst, Hown, !String.eqb_refl. reflexivity.
Qed.

(** Once the acceptor's game has ended, [execute_order] answers 'Game has
    ended' and commits nothing, before looking at the quantity or at any
    balance. *)
Theorem execute_order_rejects_ended_game s tok oid qarg p o g :
  participant_by_token s tok = Some p ->
  order_get s oid = Some o -> order_status o = "open"%string ->
  order_part o <> part_id p ->
  game_get s (part_game p) = Some g -> game_status g = "ended"%string ->
  execute_order s tok oid qarg = (RErr EGameEnded, s).
Proof.
  intros Hp Ho Hst Hown Hg Hend. unfold execute_order.
  rewrite Hp, Ho, Hst, String.eqb_refl. simpl.
  apply String.eqb_neq in Hown. rewrite Hown, Hg, Hend, String.eqb_refl. reflexivity.
Qed.

(** The quantity to execute (the order's remaining shares when none is
    given) must be positive ('Invalid number of shares') and at most the
    remaining shares ('Order too small'); otherwise nothing is committed. *)
Theorem execute_order_rejects_bad_quantity s tok oid qarg p o g :
  participant_by_token s tok = Some p ->
  order_get s oid = Some o -> order_status o = "open"%string ->
  order_part o <> part_id p ->
  game_get s (part_game p) = Some g -> game_status g <> "ended"%string ->
  (resolve_qty qarg o <= 0 -> execute_order s tok oid qarg = (RErr EInvalidNumberOfShares, s)) /\
  (0 < resolve_qty qarg o -> order_shares o < resolve_qty qarg o ->
   execute_order s tok oid qarg = (RErr EOrderTooSmall, s)).
Proof.
  intros Hp Ho Hst Hown Hg Hend. unfold execute_order.
  rewrite Hp, Ho, Hst, String.eqb_refl. simpl.
  apply String.eqb_neq in Hown. apply String.eqb_neq in Hend. rewrite Hown, Hg, Hend.
  split; intros Hq.
  - apply Z.leb_le in Hq. now rewrite Hq.
  - intros Hq'. apply Z.leb_gt in Hq. apply Z.ltb_lt in Hq'. now rewrite Hq, Hq'.
Qed.

(** Executing all remaining shares of an order (in particular when no
    quantity is given) leaves it filled with 0 shares. *)
Theorem execute_order_full_fill s tok oid qarg o s' :
  order_get s oid = Some o ->
  resolve_qty qarg o = order_shares o ->
  execute_order s tok oid qarg = (ROk, s') ->
  exists o', order_get s' oid = Some o' /\
             order_status o' = "filled"%string /\ order_shares o' = 0.
Proof.
  intros Ho Hq H.
  destruct (execute_order_ok_inv _ _ _ _ _ _ Ho H) as (p & g & b & c & h & _ & _ & _ & _ & _ & _
                                                     & _ & _ & _ & _ & ->).
  rewrite order_get_settle, Ho, Hq. simpl. eexists. split; [reflexivity|].
  unfold reduce_order. simpl. rewrite Z.sub_diag. simpl. split; reflexivity.
Qed.

Lemma find_app_last {A} (q : A -> bool) l x :
  q x = false -> find q (l ++ [x]) = find q l.
Proof.
  intros Hx. induction l as [|a l IH]; simpl; [now rewrite Hx|].
  destruct (q a); auto.
Qed.

Lemma by_pid_other k pid x : pid <> k -> by_pid k x = true -> by_pid pid x = false.
Proof. unfold by_pid. intros Hne H. bool_facts. apply String.eqb_neq. congruence. Qed.

Lemma by_owner_player_other k n pid e x :
  pid <> k -> by_owner_player k n x = true -> by_owner_player pid e x = false.
Proof.
  unfold by_owner_player. intros Hne H. bool_facts.
  apply andb_false_iff. left. apply String.eqb_neq. congruence.
Qed.

Lemma participant_get_id s pid c : participant_get s pid = Some c -> part_id c = pid.
Proof. intros H. apply find_In_true in H as [_ H]. unfold by_pid in H. now bool_facts. Qed.

Lemma game_get_id s gid g : game_get s gid = Some g -> game_id g = gid.
Proof. intros H. apply find_In_true in H as [_ H]. unfold by_gid in H. now bool_facts. Qed.

Lemma settle_holdings s g oid o b c q :
  holdings (settle s g oid o b c q) =
    let hs1 := update_first (by_owner_player (part_id c) (order_player o))
                            (add_hold_shares (- q)) (holdings s) in
    match find (by_owner_player (part_id b) (order_player o)) hs1 with
    | Some _ => update_first (by_owner_player (part_id b) (order_player o))
                             (add_hold_shares q) hs1
    | None => hs1 ++ [mkHolding (next_holding_id s) (part_id b) (order_player o) q]
    end.
Proof. unfold settle. simpl. destruct (find _ _); reflexivity. Qed.

(** A settlement between [b] and [c] leaves the games, every other
    participant, every other participant's holdings and every other order as
    they were. *)
Lemma settle_others s g oid o b c q :
  let s' := settle s g oid o b c q in
  games s' = games s /\
  (forall pid, pid <> part_id b -> pid <> part_id c ->
               participant_get s' pid = participant_get s pid) /\
  (forall pid e, pid <> part_id b -> pid <> part_id c ->
                 held_shares s' pid e = held_shares s pid e) /\
  (forall oid', oid' <> oid -> order_get s' oid' = order_get s oid').
Proof.
  cbv zeta. split; [unfold settle; destruct (find _ _); reflexivity|].
  split; [|split].
  - intros pid Hb Hc. unfold participant_get.
    destruct (settle_tables s g oid o b c q) as (-> & _ & _).
    rewrite !find_update_first_other; auto;
      intros x Hx; (eapply by_pid_other; [|exact Hx]); auto.
  - intros pid e Hb Hc. unfold held_shares, holding_first. rewrite settle_holdings.
    assert (Hs : forall l, find (by_owner_player pid e)
                   (update_first (by_owner_player (part_id c) (order_player o))
                      (add_hold_shares (- q)) l) = find (by_owner_player pid e) l).
    { intros l. apply find_update_first_other; intros x Hx;
        apply (by_owner_player_other (part_id c) (order_player o)); auto. }
    cbv zeta. destruct (find (by_owner_player (part_id b) (order_player o)) _).
    + rewrite find_update_first_other, Hs; auto; intros x Hx;
        apply (by_owner_player_other (part_id b) (order_player o)); auto.
    + rewrite find_app_last, Hs; auto.
      unfold by_owner_player. simpl. apply andb_false_iff. left. apply String.eqb_neq. auto.
  - intros oid' Hne. unfold order_get.
    destruct (settle_tables s g oid o b c q) as (_ & -> & _).
    apply find_update_first_other; intros x Hx; apply (by_oid_other oid);
      rewrite ?by_oid_reduce_order; auto.
Qed.

(** A successful execution changes only the acceptor, the order owner and
    the executed order: the games, every other participant (cash included),
    every other participant's holdings and every other order are as before. *)
Theorem execute_order_third_parties s tok oid qarg p o s' :
  participant_by_token s tok = Some p ->
  order_get s oid = Some o ->
  execute_order s tok oid qarg = (ROk, s') ->
  games s' = games s /\
  (forall pid, pid <> part_id p -> pid <> order_part o ->
               participant_get s' pid = participant_get s pid) /\
  (forall pid e, pid <> part_id p -> pid <> order_part o ->
                 held_shares s' pid e = held_shares s pid e) /\
  (forall oid', oid' <> oid -> order_get s' oid' = order_get s oid').
Proof.
  intros Hp Ho H.
  destruct (execute_order_ok_inv _ _ _ _ _ _ Ho H)
    as (p' & g & b & c & h & Hp' & _ & _ & _ & _ & Hcr & Hrole & _ & _ & _ & ->).
  rewrite Hp in Hp'. injection Hp' as <-.
  apply participant_get_id in Hcr.
  destruct (settle_others s g oid o b c (resolve_qty qarg o)) as (Hg & Hpart & Hhold & Hord).
  destruct (String.eqb (order_type o) "sell"); subst.
  - repeat split; auto; intros; [apply Hpart|apply Hhold]; congruence.
  - repeat split; auto; intros; [apply Hpart|apply Hhold]; congruence.
Qed.

(** A successful execution records exactly one transaction, in the
    acceptor's game, for the order's entity, at the order's price and for the
    executed quantity; the acceptor is the buyer of a sell order and the
    seller of a buy order, the order's owner the other side. *)
Theorem execute_order_records_trade s tok oid qarg p o s' :
  participant_by_token s tok = Some p ->
  order_get s oid = Some o ->
  execute_order s tok oid qarg = (ROk, s') ->
  exists tx, transactions s' = transactions s ++ [tx] /\
    tx_game tx = part_game p /\ tx_player tx = order_player o /\
    tx_price tx = price o /\ tx_shares tx = resolve_qty qarg o /\
    (if String.eqb (order_type o) "sell"
     then buyer_id tx = part_id p /\ seller_id tx = order_part o
     else buyer_id tx = order_part o /\ seller_id tx = part_id p).
Proof.
  intros Hp Ho H.
  destruct (execute_order_ok_inv _ _ _ _ _ _ Ho H)
    as (p' & g & b & c & h & Hp' & Hg & _ & _ & _ & Hcr & Hrole & _ & _ & _ & ->).
  rewrite Hp in Hp'. injection Hp' as <-.
  apply participant_get_id in Hcr. apply game_get_id in Hg.
  destruct (settle_tables s g oid o b c (resolve_qty qarg o)) as (_ & _ & ->).
  eexists. split; [reflexivity|]. simpl. repeat split; auto.
  destruct (String.eqb (order_type o) "sell"); subst; auto.
Qed.

(** ** [get_market_metrics]: the market overview *)

Lemma find_update_first_map {A B} (m : A -> B) (p q : A -> bool) f l :
  (forall x, q (f x) = q x) -> (forall x, m (f x) = m x) ->
  option_map m (find q (update_first p f l)) = option_map m (find q l).
Proof.
  intros Hq Hm. induction l as [|a l IH]; simpl; auto.
  destruct (p a); simpl; rewrite ?Hq; destruct (q a); simpl; auto; now rewrite Hm.
Qed.

(** After a successful execution, the market overview of the acceptor's game
    counts one more trade and [qty] more shares of volume, and the overview
    of every other game is unchanged. *)
Theorem execute_order_market_overview s tok oid qarg p o s' tok' r g :
  participant_by_token s tok = Some p ->
  order_get s oid = Some o ->
  execute_order s tok oid qarg = (ROk, s') ->
  participant_by_token s tok' = Some r ->
  game_get s (part_game r) = Some g ->
  market_overview s' tok' =
    let all := game_transactions s (game_id g) in
    if String.eqb (part_game r) (part_game p)
    then Some (Z.of_nat (length all) + 1, sum_Z (map tx_shares all) + resolve_qty qarg o,
               Z.of_nat (length (game_entities g)))
    else Some (Z.of_nat (length all), sum_Z (map tx_shares all),
               Z.of_nat (length (game_entities g))).
Proof.
  intros Hp Ho H Hr Hg.
  destruct (execute_order_ok_inv _ _ _ _ _ _ Ho H)
    as (p' & g0 & b & c & h & Hp' & Hg0 & _ & _ & _ & _ & _ & _ & _ & _ & Hs').
  rewrite Hp in Hp'. injection Hp' as <-.
  assert (Hgid := game_get_id _ _ _ Hg). assert (Hg0id := game_get_id _ _ _ Hg0).
  assert (Htok : option_map part_game (participant_by_token s' tok')
                 = option_map part_game (participant_by_token s tok')).
  { subst s'. unfold participant_by_token.
    destruct (settle_tables s g0 oid o b c (resolve_qty qarg o)) as (-> & _ & _).
    rewrite !find_update_first_map; reflexivity. }
  rewrite Hr in Htok. unfold market_overview.
  destruct (participant_by_token s' tok') as [r'|]; [|discriminate].
  injection Htok as ->.
  assert (Hgames : games s' = games s)
    by (subst s'; unfold settle; destruct (find _ _); reflexivity).
  unfold game_get at 1. rewrite Hgames. fold (game_get s (part_game r)). rewrite Hg.
  unfold game_transactions.
  destruct (settle_tables s g0 oid o b c (resolve_qty qarg o)) as (_ & _ & Htx).
  rewrite <- Hs' in Htx. rewrite Htx, filter_app. simpl.
  rewrite Hgid, Hg0id.
  destruct (String.eqb (part_game p) (part_game r)) eqn:E1;
  destruct (String.eqb (part_game r) (part_game p)) eqn:E2; bool_facts; try congruence;
    simpl; rewrite ?app_nil_r; auto.
  rewrite length_app, map_app, sum_Z_app, Nat2Z.inj_add. simpl. repeat f_equal. lia.
Qed.

(** ** [end_game] *)

(** The path of a successful [end_game]: the caller is an admin of an
    active game [g]; the open orders of [g] are cancelled; the game becomes
    [set_game_end] of the winner's id. *)
Lemma end_game_ok_inv s tok wp fs fp p wn s' :
  participant_by_token s tok = Some p ->
  end_game s tok wp fs fp = (RWinner wn, s') ->
  exists g w fs',
    game_get s (part_game p) = Some g /\ role p = "admin"%string /\
    game_status g <> "ended"%string /\
    let sel := fun o => String.eqb (order_game o) (game_id g)
                        && String.eqb (order_status o) "open" in
    let s1 := set_orders (cancel_matching sel (orders s)) (next_order_id s) s in
    s' = set_games (update_first (by_gid (game_id g)) (set_game_end (option_map part_id w) fs')
                                 (games s1)) s1 /\
    wn = option_map part_name w /\
    (w = None \/ exists pl, w = pick_winner pl (filter (fun q => String.eqb (part_game q) (game_id g)
                                      && String.eqb (role q) "player") (participants s))).
Proof.
  intros Hp H. unfold end_game in H. rewrite Hp in H.
  destruct (negb (String.eqb (role p) "admin")) eqn:Ha; [discriminate|].
  destruct (game_get s (part_game p)) as [g|] eqn:Hg; [|discriminate].
  destruct (String.eqb (game_status g) "ended") eqn:He; [discriminate|].
  bool_facts. cbv zeta in H.
  repeat match type of H with
  | context [if ?c then _ else _] => destruct c
  | context [match ?x with Some _ => _ | None => _ end] => destruct x
  end; try discriminate.
  all: injection H as <- <-.
  all: first [ exists g, None, (game_final_scores g);
                split; [reflexivity|]; split; [assumption|]; split; [assumption|]; cbv zeta;
                split; [reflexivity|]; split; [reflexivity|]; now left
              | eexists g, (pick_winner _ _), _;
                split; [reflexivity|]; split; [assumption|]; split; [assumption|]; cbv zeta;
                split; [reflexivity|]; split; [reflexivity|]; right; eexists; reflexivity ].
Qed.

(** [end_game] refuses, committing nothing, a caller who is not the game's
    admin ('Only admin can end the game') and a game that has already ended
    ('Game already ended'). *)
Theorem end_game_rejections s tok wp fs fp p :
  participant_by_token s tok = Some p ->
  (role p <> "admin"%string -> end_game s tok wp fs fp = (RErr EForbidden, s)) /\
  (forall g, role p = "admin"%string -> game_get s (part_game p) = Some g ->
   game_status g = "ended"%string -> end_game s tok wp fs fp = (RErr EGameAlreadyEnded, s)).
Proof.
  intros Hp. unfold end_game. rewrite Hp. split.
  - intros Ha. apply String.eqb_neq in Ha. now rewrite Ha.
  - intros g Ha Hg He. rewrite Ha, Hg, He. reflexivity.
Qed.

Lemma game_get_end_game s tok wp fs fp p wn s' :
  participant_by_token s tok = Some p ->
  end_game s tok wp fs fp = (RWinner wn, s') ->
  exists g', game_get s' (part_game p) = Some g' /\ game_status g' = "ended"%string.
Proof.
  intros Hp H.
  destruct (end_game_ok_inv _ _ _ _ _ _ _ _ Hp H) as (g & w & fs' & Hg & _ & _ & -> & _).
  rewrite <- (game_get_id _ _ _ Hg). unfold game_get. simpl.
  rewrite find_update_first_same by (intros x Hx; exact Hx).
  rewrite (game_get_id _ _ _ Hg). unfold game_get in Hg. rewrite Hg.
  eexists. split; reflexivity.
Qed.

(** A successful [end_game] marks the game ended, leaves none of its orders
    open, and changes no order of another game, no participant (cash
    included), no holding and no transaction. *)
Theorem end_game_effect s tok wp fs fp p wn s' :
  participant_by_token s tok = Some p ->
  end_game s tok wp fs fp = (RWinner wn, s') ->
  (exists g', game_get s' (part_game p) = Some g' /\ game_status g' = "ended"%string) /\
  (forall o, In o (orders s') -> order_game o = part_game p -> order_status o <> "open"%string) /\
  filter (fun o => negb (String.eqb (order_game o) (part_game p))) (orders s') =
  filter (fun o => negb (String.eqb (order_game o) (part_game p))) (orders s) /\
  participants s' = participants s /\ holdings s' = holdings s /\
  transactions s' = transactions s.
Proof.
  intros Hp H. split; [eapply game_get_end_game; eauto|].
  destruct (end_game_ok_inv _ _ _ _ _ _ _ _ Hp H) as (g & w & fs' & Hg & _ & _ & -> & _).
  rewrite (game_get_id _ _ _ Hg). simpl. split; [|split; [|repeat split]].
  - intros o Ho Hgo Hop. unfold cancel_matching in Ho.
    apply in_map_iff in Ho as (x & Hx & _).
    destruct (String.eqb (order_game x) (part_game p) && String.eqb (order_status x) "open") eqn:Hs.
    + subst o. discriminate.
    + subst o. rewrite Hgo, Hop, !String.eqb_refl in Hs. discriminate.
  - clear H. induction (orders s) as [|a l IH]; simpl; auto.
    destruct (String.eqb (order_game a) (part_game p)) eqn:Ha; simpl; rewrite ?Ha; simpl.
    + destruct (String.eqb (order_status a) "open"); simpl; rewrite ?Ha; simpl; exact IH.
    + now rewrite IH.
Qed.

(** Once [end_game] has succeeded, no participant of that game can place an
    order ('Game has ended') or execute one (every such call answers an
    error), and a second [end_game] by its admin answers 'Game already
    ended'; none of these calls commits anything. *)
Theorem end_game_closes_game s tok wp fs fp p wn s' tok2 q :
  participant_by_token s tok = Some p ->
  end_game s tok wp fs fp = (RWinner wn, s') ->
  participant_by_token s' tok2 = Some q -> part_game q = part_game p ->
  (forall ot pn pr sh, place_order s' tok2 ot pn pr sh = (RErr EGameEnded, s')) /\
  (forall oid qarg, exists e, execute_order s' tok2 oid qarg = (RErr e, s')) /\
  (forall wp' fs2 fp', role q = "admin"%string ->
   end_game s' tok2 wp' fs2 fp' = (RErr EGameAlreadyEnded, s')).
Proof.
  intros Hp H Hq Hgq.
  destruct (game_get_end_game _ _ _ _ _ _ _ _ Hp H) as (g' & Hg' & He).
  rewrite <- Hgq in Hg'. split; [|split].
  - intros. unfold place_order. rewrite Hq, Hg', He. reflexivity.
  - intros oid qarg. unfold execute_order. rewrite Hq.
    destruct (order_get s' oid) as [o|]; [|eauto].
    destruct (negb _); [eauto|]. destruct (String.eqb _ _); [eauto|].
    rewrite Hg', He. simpl. eauto.
  - intros wp' fs2 fp' Ha. unfold end_game. rewrite Hq, Ha, Hg', He. reflexivity.
Qed.

(** ** The winner loop *)

(** The loop from a running maximum [m]: either no participant beats [m],
    or the result is the first participant [w] of maximal value, above [m]. *)
Lemma pick_winner_fold (value : Participant -> Z) ps m wo :
  let r := fold_left (fun acc q => let v := value q in
                        if fst acc <? v then (v, Some q) else acc) ps (m, wo) in
  (r = (m, wo) /\ forall q, In q ps -> value q <= m) \/
  (exists l1 w l2, ps = l1 ++ w :: l2 /\ r = (value w, Some w) /\ m < value w /\
     (forall q, In q l1 -> value q < value w) /\ (forall q, In q l2 -> value q <= value w)).
Proof.
  cbv zeta. revert m wo. induction ps as [|a ps IH]; intros m wo; simpl.
  - left. split; [reflexivity|]. intros q [].
  - destruct (m <? value a) eqn:Ha; bool_facts.
    + destruct (IH (value a) (Some a)) as [[Hr Hall] | (l1 & w & l2 & Heq & Hr & Hlt & H1 & H2)].
      * right. exists [], a, ps. rewrite Hr. repeat split; auto. intros q [].
      * right. exists (a :: l1), w, l2. subst ps. repeat split; auto; [lia|].
        intros q [<-|Hq]; [lia|auto].
    + destruct (IH m wo) as [[Hr Hall] | (l1 & w & l2 & Heq & Hr & Hlt & H1 & H2)].
      * left. split; auto. intros q [<-|Hq]; auto.
      * right. exists (a :: l1), w, l2. subst ps. repeat split; auto.
        intros q [<-|Hq]; [lia|auto].
Qed.

Lemma pick_winner_In value ps w : pick_winner value ps = Some w -> In w ps.
Proof.
  unfold pick_winner. intros H. cbv zeta in H.
  pose proof (pick_winner_fold value ps (-1) None) as Hf. cbv zeta in Hf.
  destruct Hf as [[Hr _] | (l1 & w' & l2 & Heq & Hr & _)];
    rewrite Hr in H; simpl in H; [discriminate|].
  injection H as <-. subst ps. apply in_or_app. right. now left.
Qed.


(** The winner [end_game] reports is a participant of the caller's game
    with the role 'player' and the reported name, and the game records that
    participant's id as its winner. *)
Theorem end_game_winner_is_player s tok wp fs fp p n s' :
  participant_by_token s tok = Some p ->
  end_game s tok wp fs fp = (RWinner (Some n), s') ->
  exists q, In q (participants s) /\ part_game q = part_game p /\
            role q = "player"%string /\ part_name q = n /\
            exists g', game_get s' (part_game p) = Some g' /\ winner_id g' = Some (part_id q).
Proof.
  intros Hp H.
  destruct (end_game_ok_inv _ _ _ _ _ _ _ _ Hp H)
    as (g & w & fs' & Hg & _ & _ & -> & Hwn & [Hw | (pl & Hw)]);
    [subst w; discriminate|].
  destruct w as [q|]; [|discriminate]. simpl in Hwn. injection Hwn as Hn.
  symmetry in Hw. apply pick_winner_In, filter_In in Hw as [Hin Hq]. bool_facts.
  assert (Hgid := game_get_id _ _ _ Hg).
  exists q. repeat split; auto; [congruence|].
  rewrite <- Hgid. unfold game_get. simpl.
  rewrite find_update_first_same by (intros x Hx; exact Hx).
  rewrite Hgid. unfold game_get in Hg. rewrite Hg.
  eexists. split; reflexivity.
Qed.

(** ** Filled and cancelled orders are final *)

Lemma In_update_first_keep {A} (p : A -> bool) f l x y :
  In x l -> find p l = Some y -> x <> y -> In x (update_first p f l).
Proof.
  induction l as [|a l IH]; simpl; [tauto|].
  intros Hin Hf Hne. destruct (p a) eqn:Ha.
  - injection Hf as <-. destruct Hin as [<-|Hin]; [congruence|]. now right.
  - destruct Hin as [<-|Hin]; [now left|]. right. auto.
Qed.

Lemma In_closed_update_first s oid o f x :
  order_get s oid = Some o -> order_status o = "open"%string ->
  In x (orders s) -> order_status x <> "open"%string ->
  In x (update_first (by_oid oid) f (orders s)).
Proof.
  intros Ho Hst Hin Hx. eapply In_update_first_keep; eauto. congruence.
Qed.

Lemma In_cancel_matching_keep sel l x :
  In x l -> sel x = false -> In x (cancel_matching sel l).
Proof.
  intros Hin Hs. unfold cancel_matching. apply in_map_iff. exists x. now rewrite Hs.
Qed.

(** No operation modifies or removes an order that is no longer open: a
    filled or cancelled order stays in the table as it is. *)
Theorem run_keeps_closed_orders s op x :
  In x (orders s) -> order_status x <> "open"%string ->
  In x (orders (snd (run s op))).
Proof.
  intros Hin Hx. assert (Hx' := Hx). apply String.eqb_neq in Hx'.
  destruct op as [tok ot pn pr sh|tok oid qarg|tok oid|tok ot|tok wp fs fp]; simpl.
  - unfold place_order. split_goal_paths; simpl; auto.
    all: apply in_or_app; now left.
  - unfold execute_order. split_goal_paths; simpl; auto.
    all: bool_facts.
    all: try (eapply In_closed_update_first; eauto; fail).
    all: match goal with
         | |- In _ (orders (settle ?s ?g ?oid ?o ?b ?c ?q)) =>
           destruct (settle_tables s g oid o b c q) as (_ & -> & _)
         end.
    all: eapply In_closed_update_first; eauto.
  - unfold cancel_order. split_goal_paths; simpl; auto. bool_facts.
    eapply In_closed_update_first; eauto.
  - unfold cancel_all_orders. split_goal_paths; simpl; auto.
    apply In_cancel_matching_keep; auto.
    unfold cancel_all_sel. now rewrite Hx', andb_false_r, andb_false_l.
  - unfold end_game. split_goal_paths; simpl; auto.
    all: apply In_cancel_matching_keep; auto; now rewrite Hx', andb_false_r.
Qed.

(** ** Conservation over every operation *)

Lemma resp_ok_dec (r : Resp) : {r = ROk} + {r <> ROk}.
Proof. destruct r; [left; reflexivity|right; discriminate..]. Qed.

Lemma execute_order_tables_err s tok oid qarg r s' :
  execute_order s tok oid qarg = (r, s') -> r <> ROk ->
  participants s' = participants s /\ holdings s' = holdings s.
Proof.
  intros H Hr. unfold execute_order in H.
  split_paths H; injection H as Hr' Hs; subst; try congruence; split; reflexivity.
Qed.

Lemma settle_other_entity s g oid o b c q e :
  e <> order_player o ->
  total_shares (settle s g oid o b c q) e = total_shares s e.
Proof.
  intros Hne. unfold total_shares. rewrite settle_holdings. cbv zeta.
  assert (H0 : forall k d l,
    sum_Z (map (entity_measure e)
                 (update_first (by_owner_player k (order_player o)) (add_hold_shares d) l))
    = sum_Z (map (entity_measure e) l)).
  { intros k d l. rewrite (sum_update_first _ _ _ 0); [destruct (existsb _ _); lia|].
    intros x Hx. unfold by_owner_player in Hx. bool_facts.
    unfold entity_measure. simpl. destruct (String.eqb_spec (hold_player x) e); [congruence|lia]. }
  destruct (find (by_owner_player (part_id b) (order_player o))
                 (update_first (by_owner_player (part_id c) (order_player o))
                               (add_hold_shares (- q)) (holdings s))).
  - now rewrite !H0.
  - rewrite map_app, sum_Z_app, H0. simpl. unfold entity_measure. simpl.
    apply String.eqb_neq in Hne. rewrite String.eqb_sym, Hne. lia.
Qed.

(** Every operation, successful or not, leaves the total number of shares
    of every entity as it was: shares only move between participants. *)
Theorem run_conserves_shares s op e :
  total_shares (snd (run s op)) e = total_shares s e.
Proof.
  destruct op as [tok ot pn pr sh|tok oid qarg|tok oid|tok ot|tok wp fs fp]; simpl.
  - unfold place_order. split_goal_paths; reflexivity.
  - destruct (execute_order s tok oid qarg) as [r s'] eqn:Hex. simpl.
    destruct (resp_ok_dec r) as [->|Hr].
    + destruct (order_get s oid) as [o|] eqn:Ho.
      2: { unfold execute_order in Hex. rewrite Ho in Hex.
           destruct (participant_by_token s tok); discriminate. }
      destruct (execute_order_ok_inv _ _ _ _ _ _ Ho Hex)
        as (p & g & b & c & h & _ & _ & _ & _ & _ & _ & _ & _ & Hh & _ & ->).
      assert (Hhin := find_existsb _ _ _ Hh).
      destruct (String.eqb_spec e (order_player o)) as [->|Hne].
      * exact (settle_conserves_shares s g oid o b c (resolve_qty qarg o) Hhin).
      * now apply settle_other_entity.
    + destruct (execute_order_tables_err _ _ _ _ _ _ Hex Hr) as [_ Hhs].
      unfold total_shares. now rewrite Hhs.
  - unfold cancel_order. split_goal_paths; reflexivity.
  - unfold cancel_all_orders. split_goal_paths; reflexivity.
  - unfold end_game. split_goal_paths; reflexivity.
Qed.

(** ** Entity names *)

Lemma lstrip_list x : list_ascii_of_string (lstrip x) = drop_space (list_ascii_of_string x).
Proof. induction x as [|c r IH]; simpl; auto. destruct (is_space c); auto. Qed.

Lemma strip_list x :
  list_ascii_of_string (strip x)
  = rev (drop_space (rev (drop_space (list_ascii_of_string x)))).
Proof.
  unfold strip, rev_string.
  now rewrite list_ascii_of_string_of_list_ascii, lstrip_list,
    list_ascii_of_string_of_list_ascii, lstrip_list.
Qed.

Lemma drop_space_head l :
  drop_space l = [] \/ exists c t, drop_space l = c :: t /\ is_space c = false.
Proof.
  induction l as [|a l IH]; simpl; auto.
  destruct (is_space a) eqn:Ha; auto. right. eauto.
Qed.

Lemma drop_space_incl l a : In a (drop_space l) -> In a l.
Proof.
  induction l as [|b l IH]; simpl; auto.
  destruct (is_space b); simpl; auto.
Qed.

Lemma drop_space_last l c :
  is_space c = false -> exists z, drop_space (l ++ [c]) = z ++ [c].
Proof.
  intros Hc. induction l as [|a l IH]; simpl.
  - rewrite Hc. now exists [].
  - destruct (is_space a); auto. now exists (a :: l).
Qed.

Lemma split_comma_nonnil x : split_comma x <> [].
Proof.
  destruct x as [|c r]; simpl; [discriminate|].
  destruct (split_comma r) as [|cur rest]; [discriminate|].
  destruct (Ascii.eqb c ","%char); discriminate.
Qed.

Lemma split_comma_no_comma x y :
  In y (split_comma x) -> ~ In ","%char (list_ascii_of_string y).
Proof.
  revert y. induction x as [|c r IH]; intros y; simpl.
  - intros [<-|[]]. simpl. tauto.
  - assert (Hnn := split_comma_nonnil r).
    destruct (split_comma r) as [|cur rest]; [congruence|].
    destruct (Ascii.eqb_spec c ","%char) as [Hc|Hc].
    + intros [<-|Hy]; [simpl; tauto|]. now apply IH.
    + intros [<-|Hy]; [|apply IH; now right].
      simpl. intros [Heq|Hin]; [congruence|]. revert Hin. apply IH. now left.
Qed.

(** Every tradeable entity name parsed from [player_names] is non-empty,
    contains no comma, and neither starts nor ends with whitespace. *)
Theorem game_entities_shape g x :
  In x (game_entities g) ->
  ~ In ","%char (list_ascii_of_string x) /\
  exists c t c' t', list_ascii_of_string x = c :: t /\ list_ascii_of_string x = t' ++ [c'] /\
                    is_space c = false /\ is_space c' = false.
Proof.
  unfold game_entities. intros H. apply filter_In in H as [Hin Hne].
  apply in_map_iff in Hin as (y & <- & Hy).
  rewrite strip_list. split.
  - intros Hc. apply in_rev, drop_space_incl, in_rev, drop_space_incl in Hc.
    exact (split_comma_no_comma _ _ Hy Hc).
  - destruct (drop_space_head (list_ascii_of_string y)) as [HD|(c & t & HD & Hc)].
    + exfalso. rewrite <- (string_of_list_ascii_of_string (strip y)), strip_list, HD in Hne.
      simpl in Hne. discriminate.
    + rewrite HD. simpl. destruct (drop_space_last (rev t) c Hc) as (z & Hz). rewrite Hz.
      destruct (drop_space_head (rev t ++ [c])) as [HE|(c' & t' & HE & Hc')].
      * rewrite Hz in HE. now destruct z.
      * rewrite Hz in HE. exists c, (rev z), c', (rev t').
        split; [rewrite rev_app_distr; reflexivity|].
        split; [rewrite HE; reflexivity|]. auto.
Qed.

(** ** Game creation *)

Lemma sum_Z_map_ext_const {A} (F : A -> Z) (c : Z) l :
  (forall x, F x = c) -> sum_Z (map F l) = Z.of_nat (length l) * c.
Proof.
  intros HF. induction l as [|a l IH]; [reflexivity|].
  cbn [map sum_Z length]. rewrite IH, HF, Nat2Z.inj_succ. ring.
Qed.

Lemma sum_Z_flat_map {A B} (m : B -> Z) (F : A -> list B) l :
  sum_Z (map m (flat_map F l)) = sum_Z (map (fun x => sum_Z (map m (F x))) l).
Proof.
  induction l as [|a l IH]; simpl; auto.
  now rewrite map_app, sum_Z_app, IH.
Qed.

Lemma number_rows_measure e n rows :
  sum_Z (map (entity_measure e) (number_rows n rows)) = sum_Z (map (row_measure e) rows).
Proof.
  revert n. induction rows as [|[[pid nm] sh] rows IH]; intros n; simpl; auto.
  now rewrite IH.
Qed.

Lemma sum_names_count e sh names :
  sum_Z (map (fun nm => if String.eqb nm e then sh else 0) names)
  = Z.of_nat (count_occ string_dec names e) * sh.
Proof.
  induction names as [|x names IH]; simpl; [lia|].
  destruct (String.eqb_spec x e), (string_dec x e); try congruence; rewrite IH; lia.
Qed.

Lemma nth_error_seq_firstn {A} (l : list A) n :
  (n <= length l)%nat ->
  map (fun i => nth_error l i) (seq 0 n) = map Some (firstn n l).
Proof.
  revert n. induction l as [|a l IH]; intros n Hn; simpl in *.
  - assert (n = 0%nat) by lia. now subst.
  - destruct n as [|n]; simpl; auto. f_equal.
    rewrite <- seq_shift, map_map. simpl. apply IH. lia.
Qed.

Lemma parse_names_nonempty x nm : In nm (parse_names x) -> nm <> EmptyString.
Proof.
  unfold parse_names. intros H. apply filter_In in H as [_ H]. bool_facts. exact H.
Qed.

(** The path of a successful [create_game]. *)
Lemma create_game_ok s gid atok fresh f s' :
  create_game s gid atok fresh f = Some s' ->
  (Z.to_nat (num_players f) <= length (parse_names (form_player_names f)))%nat.
Proof.
  unfold create_game. destruct (_ <? _) eqn:H; [discriminate|]. bool_facts. lia.
Qed.

(** [create_game] renders its error page and commits nothing when fewer
    names are given than the number of players. *)
Theorem create_game_too_few_names s gid atok fresh f :
  Z.of_nat (length (parse_names (form_player_names f))) < num_players f ->
  create_game s gid atok fresh f = None.
Proof. intros H. unfold create_game. apply Z.ltb_lt in H. now rewrite H. Qed.

(** Under 'even' distribution every player and every viewer starts with
    [initial_shares] shares of each listed name (the admin with nothing):
    [create_game] adds to the total shares of an entity
    [(players + viewers) * initial_shares] times the number of times the
    entity is listed. *)
Theorem create_game_even_totals s gid atok fresh f s' e :
  create_game s gid atok fresh f = Some s' ->
  distribution_mode f = "even"%string ->
  let n := Z.of_nat (Z.to_nat (num_players f) + Z.to_nat (num_viewers f)) in
  total_shares s' e = total_shares s e
    + n * (Z.of_nat (count_occ string_dec (parse_names (form_player_names f)) e)
           * initial_shares f).
Proof.
  intros H Hm. unfold create_game in H. destruct (_ <? _); [discriminate|].
  cbv zeta in H. rewrite Hm in H. simpl in H. injection H as <-.
  intros n. unfold total_shares. cbn [holdings].
  rewrite map_app, sum_Z_app, number_rows_measure, sum_Z_flat_map.
  rewrite (sum_Z_map_ext_const (A := Participant) _ (Z.of_nat (count_occ string_dec
                                   (parse_names (form_player_names f)) e) * initial_shares f)).
  - rewrite length_app, !length_map, !length_seq. unfold n. ring.
  - intros p. rewrite map_map. unfold row_measure. simpl. apply sum_names_count.
Qed.

Lemma In_firstn_In {A} (x : A) n l : In x (firstn n l) -> In x l.
Proof. intros H. rewrite <- (firstn_skipn n l). apply in_or_app. now left. Qed.

(** Under any other distribution mode each player starts with
    [own_shares_amount] shares of the name at its own position in the list,
    each viewer with no shares: [create_game] adds to the total shares of an
    entity [own_shares_amount] times the number of times the entity occurs among
    the first [players] names. Every player gets its own entity, since the
    form is rejected when there are fewer names than players. *)
Theorem create_game_own_totals s gid atok fresh f s' e :
  create_game s gid atok fresh f = Some s' ->
  distribution_mode f <> "even"%string ->
  let np := Z.to_nat (num_players f) in
  total_shares s' e = total_shares s e
    + Z.of_nat (count_occ string_dec (firstn np (parse_names (form_player_names f))) e)
      * own_shares_amount f.
Proof.
  intros H Hm. assert (Hle := create_game_ok _ _ _ _ _ _ H).
  unfold create_game in H. destruct (_ <? _); [discriminate|].
  cbv zeta in H. apply String.eqb_neq in Hm. rewrite Hm in H. simpl in H. injection H as <-.
  cbv zeta. unfold total_shares. cbn [holdings].
    rewrite map_app, sum_Z_app, number_rows_measure, sum_Z_flat_map. f_equal.
    set (names := parse_names (form_player_names f)).
    set (K := fun o : option string => match o with
              | Some x => if String.eqb x "" then 0 else if String.eqb x e then own_shares_amount f else 0
              | None => 0 end).
    rewrite (map_ext _ (fun i => K (nth_error names i))).
    2: { intros i. unfold K. destruct (nth_error names i) as [x|]; simpl; auto.
         destruct (String.eqb x ""); simpl; auto. unfold row_measure. simpl.
         destruct (String.eqb x e); lia. }
    rewrite <- (map_map (fun i => nth_error names i) K), nth_error_seq_firstn by exact Hle.
    rewrite map_map. unfold K.
    assert (Hne : forall x, In x (firstn (Z.to_nat (num_players f)) names) -> x <> EmptyString).
    { intros x Hx. apply In_firstn_In in Hx. eapply parse_names_nonempty. exact Hx. }
    induction (firstn (Z.to_nat (num_players f)) names) as [|x l IH]; simpl; [lia|].
    assert (Hx : x <> EmptyString) by (apply Hne; now left).
    apply String.eqb_neq in Hx. rewrite Hx.
    rewrite IH by (intros y Hy; apply Hne; now right).
    destruct (String.eqb_spec x e), (string_dec x e); try congruence; lia.
Qed.

Lemma filter_map_all {A B} (p : B -> bool) (F : A -> B) l :
  (forall x, p (F x) = true) -> filter p (map F l) = map F l.
Proof. intros H. induction l as [|a l IH]; simpl; auto. now rewrite H, IH. Qed.

Lemma filter_map_none {A B} (p : B -> bool) (F : A -> B) l :
  (forall x, p (F x) = false) -> filter p (map F l) = [].
Proof. intros H. induction l as [|a l IH]; simpl; auto. now rewrite H, IH. Qed.

Lemma filter_none {A} (p : A -> bool) l :
  (forall x, In x l -> p x = false) -> filter p l = [].
Proof.
  intros H. induction l as [|a l IH]; simpl; auto.
  rewrite (H a (or_introl eq_refl)). apply IH. intros x Hx. apply H. now right.
Qed.

(** A game created under a fresh id has exactly [num_players] players and
    [num_viewers] viewers (none when the number is negative) and one admin,
    who holds the game's admin token and no cash; the game itself is
    active. *)
Theorem create_game_roster s gid atok fresh f s' :
  create_game s gid atok fresh f = Some s' ->
  (forall q, In q (participants s) -> part_game q <> gid) ->
  (forall g, In g (games s) -> game_id g <> gid) ->
  let mine := filter (fun q => String.eqb (part_game q) gid) (participants s') in
  length (filter (fun q => String.eqb (role q) "player") mine) = Z.to_nat (num_players f) /\
  length (filter (fun q => String.eqb (role q) "viewer") mine) = Z.to_nat (num_viewers f) /\
  filter (fun q => String.eqb (role q) "admin") mine =
    [mkParticipant (fst (fresh (Z.to_nat (num_players f) + Z.to_nat (num_viewers f))%nat))
                   gid "Admin" "admin" atok 0] /\
  exists g, game_get s' gid = Some g /\ game_status g = "active"%string /\
            player_names g = form_player_names f.
Proof.
  intros H Hps Hgs. unfold create_game in H. destruct (_ <? _); [discriminate|].
  cbv zeta in H.
  assert (Hold : filter (fun q => String.eqb (part_game q) gid) (participants s) = []).
  { apply filter_none. intros q Hq. apply String.eqb_neq. auto. }
  destruct (String.eqb (distribution_mode f) "even"); simpl in H; injection H as <-.
  all: cbn [participants games]; rewrite !filter_app, Hold.
  all: rewrite !filter_map_all by (intros; apply String.eqb_refl).
  all: cbn [filter part_game]; rewrite !String.eqb_refl.
  all: repeat first [ rewrite filter_map_all by (intros; reflexivity)
                    | rewrite filter_map_none by (intros; reflexivity) ].
  all: cbn [filter role]; rewrite ?app_nil_l, ?app_nil_r, ?length_map, ?length_seq.
  all: split; [reflexivity|]; split; [reflexivity|]; split; [reflexivity|].
  all: unfold game_get; cbn [games]; rewrite find_app_nomatch;
         [|intros y Hy; unfold by_gid; apply String.eqb_neq; auto].
  all: cbn [find]; unfold by_gid; cbn [game_id]; rewrite String.eqb_refl.
  all: eexists; repeat split.
Qed.

(** ** More of [place_order] *)

(** [place_order] refuses, committing nothing: in an ended game ('Game has
    ended'); a non-positive price or quantity ('Invalid price or shares');
    and, only once those checks pass, an order type other than 'buy' and
    'sell' ('Invalid order type'). *)
Theorem place_order_rejections s tok ot pn pr sh p g :
  participant_by_token s tok = Some p ->
  game_get s (part_game p) = Some g ->
  (game_status g = "ended"%string -> place_order s tok ot pn pr sh = (RErr EGameEnded, s)) /\
  (game_status g <> "ended"%string -> pr <= 0 \/ sh <= 0 ->
   place_order s tok ot pn pr sh = (RErr EInvalidPriceOrShares, s)) /\
  (game_status g <> "ended"%string -> 0 < pr -> 0 < sh ->
   ot <> "sell"%string -> ot <> "buy"%string ->
   place_order s tok ot pn pr sh = (RErr EInvalidOrderType, s)).
Proof.
  intros Hp Hg. unfold place_order. rewrite Hp, Hg. split; [|split].
  - intros He. now rewrite He.
  - intros He Hbad. apply String.eqb_neq in He. rewrite He.
    destruct Hbad as [Hb|Hb]; apply Z.leb_le in Hb; rewrite Hb; [reflexivity|].
    now rewrite orb_true_r.
  - intros He Hpr Hsh Hs Hb. apply String.eqb_neq in He, Hs, Hb. rewrite He.
    apply Z.leb_gt in Hpr, Hsh. now rewrite Hpr, Hsh, Hs, Hb.
Qed.

(** ** Order ids *)

Lemma order_ids_ok_same s s' :
  map order_id (orders s') = map order_id (orders s) ->
  next_order_id s' = next_order_id s ->
  order_ids_ok s -> order_ids_ok s'.
Proof. intros Hm Hn [Hd Hb]. split; rewrite Hm; [exact Hd|]. rewrite Hn. exact Hb. Qed.

Lemma order_id_reduce_order q o : order_id (reduce_order q o) = order_id o.
Proof. unfold reduce_order. simpl. destruct (_ =? 0); reflexivity. Qed.

Lemma order_ids_ok_cancel_in s oid : order_ids_ok s -> order_ids_ok (cancel_in oid s).
Proof. apply order_ids_ok_same; [apply map_update_first; reflexivity|reflexivity]. Qed.

Lemma order_ids_ok_settle s g oid o b c q :
  order_ids_ok s -> order_ids_ok (settle s g oid o b c q).
Proof.
  apply order_ids_ok_same.
  - destruct (settle_tables s g oid o b c q) as (_ & -> & _).
    apply map_update_first. apply order_id_reduce_order.
  - unfold settle. destruct (find _ _); reflexivity.
Qed.

Lemma order_ids_ok_matching s sel :
  order_ids_ok s -> order_ids_ok (set_orders (cancel_matching sel (orders s)) (next_order_id s) s).
Proof.
  apply order_ids_ok_same; [|reflexivity]. simpl. unfold cancel_matching.
  rewrite map_map. apply map_ext. intros o. destruct (sel o); reflexivity.
Qed.

Lemma order_ids_ok_insert s o :
  order_id o = next_order_id s -> order_ids_ok s -> order_ids_ok (insert_order s o).
Proof.
  intros Ho [Hd Hb]. unfold order_ids_ok, insert_order. simpl.
  rewrite map_app. simpl. split.
  - apply NoDup_app; auto.
    + constructor; [intros []|constructor].
    + intros i Hi [<-|[]]. specialize (Hb _ Hi). lia.
  - intros i Hi. apply in_app_or in Hi as [Hi|[<-|[]]]; [specialize (Hb _ Hi)|]; lia.
Qed.

(** Every operation keeps the order ids a key of the order table below the
    next id: a placed order takes the next id and the counter moves past it,
    the other operations change no id. *)
Theorem run_keeps_order_ids s op : order_ids_ok s -> order_ids_ok (snd (run s op)).
Proof.
  intros Hok.
  destruct op as [tok ot pn pr sh|tok oid qarg|tok oid|tok ot|tok wp fs fp]; simpl.
  - unfold place_order. split_goal_paths; simpl; auto.
    all: apply order_ids_ok_insert; auto.
  - unfold execute_order. split_goal_paths; simpl; auto.
    all: first [apply order_ids_ok_cancel_in | apply order_ids_ok_settle]; auto.
  - unfold cancel_order. split_goal_paths; simpl; auto. now apply order_ids_ok_cancel_in.
  - unfold cancel_all_orders. split_goal_paths; simpl; auto. now apply order_ids_ok_matching.
  - unfold end_game. split_goal_paths; simpl; auto.
    all: apply (order_ids_ok_same (set_orders (cancel_matching
                (fun o => String.eqb (order_game o) (game_id g)
                          && String.eqb (order_status o) "open") (orders s)) (next_order_id s) s));
         [reflexivity|reflexivity|now apply order_ids_ok_matching].
Qed.

(** ** Trades are between two different participants *)

Lemma execute_order_err_transactions s tok oid qarg r s' :
  execute_order s tok oid qarg = (r, s') -> r <> ROk -> transactions s' = transactions s.
Proof.
  intros H Hr. unfold execute_order in H.
  split_paths H; injection H as Hr' Hs; subst; try congruence; reflexivity.
Qed.

(** Every recorded trade has a buyer and a seller that differ, and every
    operation keeps it so: an execution always settles between the acceptor
    and the owner of another participant's order. *)
Theorem run_keeps_no_self_trades s op : no_self_trades s -> no_self_trades (snd (run s op)).
Proof.
  intros Hs.
  destruct op as [tok ot pn pr sh|tok oid qarg|tok oid|tok ot|tok wp fs fp]; simpl.
  - unfold place_order. split_goal_paths; exact Hs.
  - destruct (execute_order s tok oid qarg) as [r s'] eqn:Hex. simpl.
    destruct (resp_ok_dec r) as [->|Hr].
    + destruct (order_get s oid) as [o|] eqn:Ho.
      2: { unfold execute_order in Hex. rewrite Ho in Hex.
           destruct (participant_by_token s tok); discriminate. }
      destruct (execute_order_ok_inv _ _ _ _ _ _ Ho Hex)
        as (p & g & b & c & h & _ & _ & _ & Hown & _ & Hcr & Hrole & _ & _ & _ & ->).
      apply participant_get_id in Hcr.
      intros t Ht. destruct (settle_tables s g oid o b c (resolve_qty qarg o)) as (_ & _ & Htx).
      rewrite Htx in Ht. apply in_app_or in Ht as [Ht|[<-|[]]]; [now apply Hs|]. simpl.
      destruct (String.eqb (order_type o) "sell"); subst; congruence.
    + intros t Ht. rewrite (execute_order_err_transactions _ _ _ _ _ _ Hex Hr) in Ht. auto.
  - unfold cancel_order. split_goal_paths; exact Hs.
  - unfold cancel_all_orders. split_goal_paths; exact Hs.
  - unfold end_game. split_goal_paths; exact Hs.
Qed.

(** ** Witnesses of the further properties *)

Lemma cancel_order_not_owner_witness :
  cancel_order s_trade "tokA" 2 = (RErr EOrderNotFound, s_trade).
Proof.
  apply (cancel_order_not_owner s_trade "tokA" 2 pA); [reflexivity|].
  intros o Ho. vm_compute in Ho. injection Ho as <-. discriminate.
Defined.

Lemma cancel_order_twice_witness :
  cancel_order (snd (cancel_order s_trade "tokB" 2)) "tokB" 2
  = (RErr EOrderCannotBeCancelled, snd (cancel_order s_trade "tokB" 2)).
Proof. apply (cancel_order_twice s_trade "tokB" 2). reflexivity. Defined.

Lemma cancel_order_only_cancels_witness :
  let s' := snd (cancel_order s_trade "tokB" 2) in
  (exists o, order_get s_trade 2 = Some o /\ order_status o = "open"%string /\
             order_get s' 2 = Some (set_order_status "cancelled" o)) /\
  (forall oid', oid' <> 2 -> order_get s' oid' = order_get s_trade oid') /\
  participants s' = participants s_trade /\ holdings s' = holdings s_trade /\
  transactions s' = transactions s_trade /\ games s' = games s_trade.
Proof. apply (cancel_order_only_cancels s_trade "tokB" 2). reflexivity. Defined.


Lemma cancel_all_orders_effect_witness :
  let s' := snd (cancel_all_orders s_trade "tokA" "") in
  1 = Z.of_nat (length (filter (cancel_all_sel (part_id pA) "") (orders s_trade))) /\
  (forall o, In o (orders s') -> cancel_all_sel (part_id pA) "" o = false) /\
  (""%string <> "buy"%string -> ""%string <> "sell"%string ->
   forall o, In o (orders s') -> order_part o = part_id pA -> order_status o <> "open"%string) /\
  filter (fun o => negb (String.eqb (order_part o) (part_id pA))) (orders s') =
  filter (fun o => negb (String.eqb (order_part o) (part_id pA))) (orders s_trade).
Proof. apply (cancel_all_orders_effect s_trade "tokA" "" pA 1); reflexivity. Defined.

Lemma cancel_all_orders_idempotent_witness :
  cancel_all_orders (snd (cancel_all_orders s_trade "tokB" "sell")) "tokB" "sell"
  = (RCount 0, snd (cancel_all_orders s_trade "tokB" "sell")).
Proof. apply (cancel_all_orders_idempotent s_trade "tokB" "sell" 1). reflexivity. Defined.

Lemma execute_order_rejects_unavailable_or_own_witness :
  ((forall o, order_get s_trade 2 = Some o -> order_status o <> "open"%string) ->
   execute_order s_trade "tokB" 2 None = (RErr EOrderNotAvailable, s_trade)) /\
  (forall o, order_get s_trade 2 = Some o -> order_status o = "open"%string ->
   order_part o = part_id pB -> execute_order s_trade "tokB" 2 None = (RErr ESelfTrade, s_trade)).
Proof. apply (execute_order_rejects_unavailable_or_own s_trade "tokB" 2 None pB). reflexivity. Defined.

Lemma execute_order_rejects_ended_game_witness :
  execute_order s_ended "tokA" 2 None = (RErr EGameEnded, s_ended).
Proof.
  apply (execute_order_rejects_ended_game s_ended "tokA" 2 None pA o2 gA_ended);
    try reflexivity; discriminate.
Defined.

Lemma execute_order_rejects_bad_quantity_witness :
  (resolve_qty (Some 0) o2 <= 0 ->
   execute_order s_trade "tokA" 2 (Some 0) = (RErr EInvalidNumberOfShares, s_trade)) /\
  (0 < resolve_qty (Some 0) o2 -> order_shares o2 < resolve_qty (Some 0) o2 ->
   execute_order s_trade "tokA" 2 (Some 0) = (RErr EOrderTooSmall, s_trade)).
Proof.
  apply (execute_order_rejects_bad_quantity s_trade "tokA" 2 (Some 0) pA o2 gA);
    try reflexivity; discriminate.
Defined.

Lemma execute_order_full_fill_witness :
  exists o', order_get (snd (execute_order s_trade "tokA" 2 (Some 5))) 2 = Some o' /\
             order_status o' = "filled"%string /\ order_shares o' = 0.
Proof. apply (execute_order_full_fill s_trade "tokA" 2 (Some 5) o2); reflexivity. Defined.

Lemma execute_order_third_parties_witness :
  let s' := snd (execute_order s_trade "tokA" 2 (Some 5)) in
  games s' = games s_trade /\
  (forall pid, pid <> part_id pA -> pid <> order_part o2 ->
               participant_get s' pid = participant_get s_trade pid) /\
  (forall pid e, pid <> part_id pA -> pid <> order_part o2 ->
                 held_shares s' pid e = held_shares s_trade pid e) /\
  (forall oid', oid' <> 2 -> order_get s' oid' = order_get s_trade oid').
Proof. apply (execute_order_third_parties s_trade "tokA" 2 (Some 5) pA o2); reflexivity. Defined.

Lemma execute_order_records_trade_witness :
  exists tx, transactions (snd (execute_order s_trade "tokA" 2 (Some 5))) = transactions s_trade ++ [tx] /\
    tx_game tx = part_game pA /\ tx_player tx = order_player o2 /\
    tx_price tx = price o2 /\ tx_shares tx = resolve_qty (Some 5) o2 /\
    (if String.eqb (order_type o2) "sell"
     then buyer_id tx = part_id pA /\ seller_id tx = order_part o2
     else buyer_id tx = order_part o2 /\ seller_id tx = part_id pA).
Proof. apply (execute_order_records_trade s_trade "tokA" 2 (Some 5) pA o2); reflexivity. Defined.

Lemma execute_order_market_overview_witness :
  market_overview (snd (execute_order s_trade "tokA" 2 (Some 5))) "tokD" =
    let all := game_transactions s_trade (game_id gA) in
    if String.eqb (part_game pD) (part_game pA)
    then Some (Z.of_nat (length all) + 1, sum_Z (map tx_shares all) + resolve_qty (Some 5) o2,
               Z.of_nat (length (game_entities gA)))
    else Some (Z.of_nat (length all), sum_Z (map tx_shares all),
               Z.of_nat (length (game_entities gA))).
Proof. apply (execute_order_market_overview s_trade "tokA" 2 (Some 5) pA o2); reflexivity. Defined.

Lemma end_game_rejections_witness :
  (role pA <> "admin"%string -> end_game s_trade "tokA" "" [] [] = (RErr EForbidden, s_trade)) /\
  (forall g, role pA = "admin"%string -> game_get s_trade (part_game pA) = Some g ->
   game_status g = "ended"%string -> end_game s_trade "tokA" "" [] [] = (RErr EGameAlreadyEnded, s_trade)).
Proof. apply (end_game_rejections s_trade "tokA" "" [] [] pA). reflexivity. Defined.

Lemma end_game_effect_witness :
  let s' := snd (end_game s_trade "tokAdm" "" scores_D []) in
  (exists g', game_get s' (part_game adm) = Some g' /\ game_status g' = "ended"%string) /\
  (forall o, In o (orders s') -> order_game o = part_game adm -> order_status o <> "open"%string) /\
  filter (fun o => negb (String.eqb (order_game o) (part_game adm))) (orders s') =
  filter (fun o => negb (String.eqb (order_game o) (part_game adm))) (orders s_trade) /\
  participants s' = participants s_trade /\ holdings s' = holdings s_trade /\
  transactions s' = transactions s_trade.
Proof.
  apply (end_game_effect s_trade "tokAdm" "" scores_D [] adm
           (match fst (end_game s_trade "tokAdm" "" scores_D []) with RWinner w => w | _ => None end));
    reflexivity.
Defined.

Lemma end_game_closes_game_witness :
  let s' := snd (end_game s_trade "tokAdm" "" scores_D []) in
  (forall ot pn pr sh, place_order s' "tokB" ot pn pr sh = (RErr EGameEnded, s')) /\
  (forall oid qarg, exists e, execute_order s' "tokB" oid qarg = (RErr e, s')) /\
  (forall wp' fs2 fp', role pB = "admin"%string ->
   end_game s' "tokB" wp' fs2 fp' = (RErr EGameAlreadyEnded, s')).
Proof.
  apply (end_game_closes_game s_trade "tokAdm" "" scores_D [] adm
           (match fst (end_game s_trade "tokAdm" "" scores_D []) with RWinner w => w | _ => None end)
           _ "tokB" pB); reflexivity.
Defined.

Lemma end_game_winner_is_player_witness :
  exists q, In q (participants s_score) /\ part_game q = part_game adm /\
            role q = "player"%string /\ part_name q = "Player 1"%string /\
            exists g', game_get (snd (end_game s_score "tokAdm" "" scores_D [])) (part_game adm) = Some g' /\
                       winner_id g' = Some (part_id q).
Proof. apply (end_game_winner_is_player s_score "tokAdm" "" scores_D [] adm); reflexivity. Defined.

Lemma run_keeps_closed_orders_witness :
  In (set_order_status "cancelled" o2)
     (orders (snd (run (snd (cancel_order s_trade "tokB" 2)) (OpCancelAll "tokB" "")))).
Proof.
  apply run_keeps_closed_orders; [vm_compute; right; left; reflexivity|discriminate].
Defined.

Lemma game_entities_shape_witness :
  ~ In ","%char (list_ascii_of_string "Alice") /\
  exists c t c' t', list_ascii_of_string "Alice" = c :: t /\ list_ascii_of_string "Alice" = t' ++ [c'] /\
                    is_space c = false /\ is_space c' = false.
Proof. apply (game_entities_shape gA). vm_compute. left. reflexivity. Defined.

Lemma create_game_too_few_names_witness :
  create_game s_trade "gN" "tokN" fresh_ids form_three = None.
Proof. apply create_game_too_few_names. vm_compute. reflexivity. Defined.

Lemma create_game_even_totals_witness :
  let n := Z.of_nat (Z.to_nat (num_players form_even) + Z.to_nat (num_viewers form_even)) in
  total_shares (created form_even) "Dan" = total_shares s_trade "Dan"
    + n * (Z.of_nat (count_occ string_dec (parse_names (form_player_names form_even)) "Dan"%string)
           * initial_shares form_even).
Proof. apply (create_game_even_totals s_trade "gN" "tokN" fresh_ids); reflexivity. Defined.

Lemma create_game_own_totals_witness :
  let np := Z.to_nat (num_players form_own) in
  total_shares (created form_own) "Eve" = total_shares s_trade "Eve"
    + Z.of_nat (count_occ string_dec (firstn np (parse_names (form_player_names form_own))) "Eve"%string)
      * own_shares_amount form_own.
Proof.
  apply (create_game_own_totals s_trade "gN" "tokN" fresh_ids); [reflexivity|discriminate].
Defined.

Lemma create_game_roster_witness :
  let mine := filter (fun q => String.eqb (part_game q) "gN") (participants (created form_own)) in
  length (filter (fun q => String.eqb (role q) "player") mine) = Z.to_nat (num_players form_own) /\
  length (filter (fun q => String.eqb (role q) "viewer") mine) = Z.to_nat (num_viewers form_own) /\
  filter (fun q => String.eqb (role q) "admin") mine =
    [mkParticipant (fst (fresh_ids (Z.to_nat (num_players form_own) + Z.to_nat (num_viewers form_own))%nat))
                   "gN" "Admin" "admin" "tokN" 0] /\
  exists g, game_get (created form_own) "gN" = Some g /\ game_status g = "active"%string /\
            player_names g = form_player_names form_own.
Proof.
  apply (create_game_roster s_trade "gN" "tokN" fresh_ids); [reflexivity| |].
  - intros q Hq. enum_In Hq; discriminate.
  - intros g Hg. enum_In Hg; discriminate.
Defined.

Lemma place_order_rejections_witness :
  (game_status gA = "ended"%string -> place_order s_trade "tokA" "hold" "Bob" 0 1 = (RErr EGameEnded, s_trade)) /\
  (game_status gA <> "ended"%string -> 0 <= 0 \/ 1 <= 0 ->
   place_order s_trade "tokA" "hold" "Bob" 0 1 = (RErr EInvalidPriceOrShares, s_trade)) /\
  (game_status gA <> "ended"%string -> 0 < 0 -> 0 < 1 ->
   "hold"%string <> "sell"%string -> "hold"%string <> "buy"%string ->
   place_order s_trade "tokA" "hold" "Bob" 0 1 = (RErr EInvalidOrderType, s_trade)).
Proof. apply (place_order_rejections s_trade "tokA" "hold" "Bob" 0 1 pA gA); reflexivity. Defined.

Lemma order_ids_ok_s_trade : order_ids_ok s_trade.
Proof.
  split.
  - simpl. repeat constructor; simpl; intuition discriminate.
  - intros i Hi. enum_In Hi; reflexivity.
Qed.

Lemma run_keeps_order_ids_witness :
  order_ids_ok (snd (run s_trade (OpPlace "tokD" "buy" "Zed" 1 1))).
Proof. apply run_keeps_order_ids. exact order_ids_ok_s_trade. Defined.

Lemma run_keeps_no_self_trades_witness :
  no_self_trades (snd (run s_trade (OpExecute "tokA" 2 (Some 5)))).
Proof. apply run_keeps_no_self_trades. intros t []. Defined.

(** * Cash as Python floats

    The handlers again, with cash and prices as binary64 floats: [price *
    shares] is rounded, a balance may overflow to infinity, and a NaN
    written to a [db.Float] column is read back as NULL ([None]), on which
    further arithmetic raises [TypeError]. [FloatSign] proves the sign facts
    of the float operations from their [SpecFloat] specifications. *)

Module FloatSign.

Definition sf_nonneg (x : spec_float) : bool :=
  match x with
  | S754_zero _ | S754_infinity false | S754_finite false _ _ => true
  | _ => false
  end.

Definition sf_pos (x : spec_float) : bool :=
  match x with
  | S754_infinity false | S754_finite false _ _ => true
  | _ => false
  end.

Lemma Prim2SF_zero : Prim2SF 0%float = S754_zero false.
Proof. reflexivity. Qed.

Lemma leb_zero_l x : (0 <=? x)%float = sf_nonneg (Prim2SF x).
Proof.
  rewrite leb_spec, Prim2SF_zero.
  destruct (Prim2SF x) as [s|s| |s m e]; try destruct s; reflexivity.
Qed.

Lemma ltb_zero_l x : (0 <? x)%float = sf_pos (Prim2SF x).
Proof.
  rewrite ltb_spec, Prim2SF_zero.
  destruct (Prim2SF x) as [s|s| |s m e]; try destruct s; reflexivity.
Qed.



(** ** Rounding keeps the sign *)

Lemma iter_pos_ind {A} (P : A -> Prop) (f : A -> A) :
  (forall x, P x -> P (f x)) -> forall p x, P x -> P (iter_pos f p x).
Proof. intros Hf p. induction p; simpl; auto. Qed.


























(** Sign facts of the float operations the handlers use. *)






Lemma fl_pos_nonneg x : (0 <? x)%float = true -> (0 <=? x)%float = true.
Proof.
  rewrite ltb_zero_l, leb_zero_l.
  destruct (Prim2SF x) as [s|s| |s m e]; try destruct s; simpl; congruence.
Qed.


Lemma fl_inf_sub_inf : PrimFloat.is_nan (infinity - infinity)%float = true.
Proof. reflexivity. Qed.

End FloatSign.

Module FloatModel.

(** *** Python floats and SQLite columns *)

(** [float(n)] for a Python [int] [n] (also the implicit conversion of
    [float * int]): rounded to nearest, ties to even; [OverflowError],
    here [None], when the rounded value exceeds the largest finite double. *)
Definition float_of_int (n : Z) : option float :=
  let f := SF2Prim (binary_normalize prec emax n 0 false) in
  if PrimFloat.is_infinity f then None else Some f.

(** Writing a float to a [db.Float] column: SQLite stores NaN as NULL. *)
Definition to_db (x : float) : option float :=
  if PrimFloat.is_nan x then None else Some x.

(** A SQLite INTEGER is 64-bit: binding a larger Python [int] raises
    [OverflowError]. *)
Definition int64_ok (n : Z) : bool := (- 2 ^ 63 <=? n) && (n <? 2 ^ 63).

(** [sum(xs)] of CPython 3.12 and later on a list of floats: the first term
    is added to the start value, the int [0]; the next ones are added with
    Neumaier's compensated summation, and the compensation is added at the
    end when it is non-zero and finite. The empty sum is the int [0], which
    the callers only subtract from a float, as [0.0]. *)
Definition neumaier_add (acc : float * float) (x : float) : float * float :=
  let '(f, c) := acc in
  let t := (f + x)%float in
  if (PrimFloat.abs x <=? PrimFloat.abs f)%float
  then (t, (c + ((f - t) + x))%float)
  else (t, (c + ((x - t) + f))%float).

Definition py_sum (xs : list float) : float :=
  match xs with
  | [] => 0%float
  | x :: r =>
    let '(f, c) := fold_left neumaier_add r ((0 + x)%float, 0%float) in
    if negb (c =? 0)%float && PrimFloat.is_finite c then (f + c)%float else f
  end.

(** Evaluating a generator whose items may raise: [None] as soon as one does. *)
Fixpoint all_some {A} (l : list (option A)) : option (list A) :=
  match l with
  | [] => Some []
  | None :: _ => None
  | Some x :: r => option_map (cons x) (all_some r)
  end.

(** *** Rows: cash and prices are floats *)

Record Participant := mkParticipant {
  part_id : string;
  part_game : string;
  part_name : string;
  role : string;
  access_token : string;
  cash : option float                (* db.Float, nullable: None is NULL *)
}.

Record Order := mkOrder {
  order_id : Z;
  order_game : string;
  order_part : string;
  order_type : string;
  order_player : string;
  price : float;                     (* db.Float, NOT NULL *)
  order_shares : Z;
  order_status : string
}.

Record Transaction := mkTransaction {
  tx_id : Z;
  tx_game : string;
  buyer_id : string;
  seller_id : string;
  tx_player : string;
  tx_price : float;                  (* db.Float, NOT NULL *)
  tx_shares : Z
}.

Record State := mkState {
  games : list Game;
  participants : list Participant;
  holdings : list Holding;
  orders : list Order;
  transactions : list Transaction;
  next_holding_id : Z;
  next_order_id : Z;
  next_tx_id : Z
}.

Definition set_cash (c : option float) (p : Participant) : Participant :=
  mkParticipant (part_id p) (part_game p) (part_name p) (role p) (access_token p) c.

Definition set_order_shares (n : Z) (o : Order) : Order :=
  mkOrder (order_id o) (order_game o) (order_part o) (order_type o)
          (order_player o) (price o) n (order_status o).

Definition set_order_status (st : string) (o : Order) : Order :=
  mkOrder (order_id o) (order_game o) (order_part o) (order_type o)
          (order_player o) (price o) (order_shares o) st.

Definition set_orders (os : list Order) (no : Z) (s : State) : State :=
  mkState (games s) (participants s) (holdings s) os (transactions s)
          (next_holding_id s) no (next_tx_id s).

Definition set_games (gs : list Game) (s : State) : State :=
  mkState gs (participants s) (holdings s) (orders s) (transactions s)
          (next_holding_id s) (next_order_id s) (next_tx_id s).

(** *** Queries *)

Definition by_token (tok : string) (p : Participant) : bool :=
  String.eqb (access_token p) tok.

Definition by_pid (pid : string) (p : Participant) : bool :=
  String.eqb (part_id p) pid.

Definition by_oid (oid : Z) (o : Order) : bool := Z.eqb (order_id o) oid.

Definition participant_by_token (s : State) (tok : string) : option Participant :=
  find (by_token tok) (participants s).

Definition participant_get (s : State) (pid : string) : option Participant :=
  find (by_pid pid) (participants s).

Definition game_get (s : State) (gid : string) : option Game :=
  find (by_gid gid) (games s).

Definition holding_first (s : State) (pid name : string) : option Holding :=
  find (by_owner_player pid name) (holdings s).

Definition order_get (s : State) (oid : Z) : option Order :=
  find (by_oid oid) (orders s).

(** *** Encumbrance *)

Definition is_open_sell (pid name : string) (o : Order) : bool :=
  String.eqb (order_part o) pid && String.eqb (order_player o) name
  && String.eqb (order_type o) "sell" && String.eqb (order_status o) "open".

Definition open_sell_orders (s : State) (pid name : string) : list Order :=
  filter (is_open_sell pid name) (orders s).

Definition is_open_buy (pid : string) (o : Order) : bool :=
  String.eqb (order_part o) pid && String.eqb (order_status o) "open"
  && String.eqb (order_type o) "buy".

Definition open_buy_orders (s : State) (pid : string) : list Order :=
  filter (is_open_buy pid) (orders s).

Definition committed_shares (s : State) (pid name : string) : Z :=
  sum_Z (map order_shares (open_sell_orders s pid name)).

Definition held_shares (s : State) (pid name : string) : Z :=
  match holding_first s pid name with Some h => hold_shares h | None => 0 end.

Definition available_shares (s : State) (pid name : string) : Z :=
  held_shares s pid name - committed_shares s pid name.

(** [order.price * order.shares] *)
Definition order_cost (o : Order) : option float :=
  option_map (fun fs => (price o * fs)%float) (float_of_int (order_shares o)).

(** [committed_cash = sum(order.price * order.shares for order in open_buy_orders)] *)
Definition committed_cash (s : State) (pid : string) : option float :=
  option_map py_sum (all_some (map order_cost (open_buy_orders s pid))).

(** [available_cash = participant.cash - committed_cash]; a NULL cash
    raises [TypeError]. *)
Definition available_cash (s : State) (p : Participant) : option float :=
  match committed_cash s (part_id p), cash p with
  | Some cc, Some c => Some (c - cc)%float
  | _, _ => None
  end.

(** *** [place_order] *)

Definition insert_order (s : State) (o : Order) : State :=
  set_orders (orders s ++ [o]) (next_order_id s + 1) s.

Definition place_order (s : State) (tok otype pname : string) (pr : float) (shares : Z)
    : Resp * State :=
  match participant_by_token s tok with
  | None => (RErr EInvalidToken, s)
  | Some p =>
    match game_get s (part_game p) with
    | None => (RErr ECrash, s)
    | Some g =>
      if String.eqb (game_status g) "ended" then (RErr EGameEnded, s) else
      if (pr <=? 0)%float || (shares <=? 0) then (RErr EInvalidPriceOrShares, s) else
      let new_order := mkOrder (next_order_id s) (game_id g) (part_id p) otype
                               pname pr shares "open" in
      (* db.session.commit(): a NaN price is stored as NULL, which the NOT
         NULL column refuses; [shares] must fit a SQLite INTEGER *)
      let commit := if PrimFloat.is_nan pr || negb (int64_ok shares) then (RErr ECrash, s)
                    else (ROrderId (next_order_id s), insert_order s new_order) in
      if String.eqb otype "sell" then
        if available_shares s (part_id p) pname <? shares
        then (RErr ENotEnoughShares, s)
        else commit
      else if String.eqb otype "buy" then
        (* total_cost = price * shares; available_cash < total_cost *)
        match float_of_int shares, available_cash s p with
        | Some fsh, Some avail =>
          if (avail <? pr * fsh)%float then (RErr ENotEnoughCash, s) else commit
        | _, _ => (RErr ECrash, s)
        end
      else (RErr EInvalidOrderType, s)
    end
  end.

(** *** [execute_order] *)

Definition resolve_qty (qarg : option Z) (o : Order) : Z :=
  match qarg with None => order_shares o | Some q => q end.

Definition cancel_in (oid : Z) (s : State) : State :=
  set_orders (update_first (by_oid oid) (set_order_status "cancelled") (orders s))
             (next_order_id s) s.

Definition reduce_order (n : Z) (o : Order) : Order :=
  let o' := set_order_shares (order_shares o - n) o in
  if Z.eqb (order_shares o') 0 then set_order_status "filled" o' else o'.

(** The settlement block: [buyer.cash -= total_cost; seller.cash +=
    total_cost] (a NULL seller cash raises [TypeError]), the holdings, the
    transaction and the order; [None] when the commit fails. *)
Definition settle (s : State) (g : Game) (oid : Z) (o : Order)
    (buyer seller : Participant) (q : Z) (total : float) : option State :=
  match cash buyer, cash seller with
  | Some b, Some c =>
    let ps1 := update_first (by_pid (part_id buyer)) (set_cash (to_db (b - total)%float))
                            (participants s) in
    let ps2 := update_first (by_pid (part_id seller)) (set_cash (to_db (c + total)%float))
                            ps1 in
    let hs1 := update_first (by_owner_player (part_id seller) (order_player o))
                            (add_hold_shares (- q)) (holdings s) in
    let '(hs2, nh, bought) :=
      match find (by_owner_player (part_id buyer) (order_player o)) hs1 with
      | Some h => (update_first (by_owner_player (part_id buyer) (order_player o))
                                (add_hold_shares q) hs1, next_holding_id s, hold_shares h + q)
      | None => (hs1 ++ [mkHolding (next_holding_id s) (part_id buyer) (order_player o) q],
                 next_holding_id s + 1, q)
      end in
    let tx := mkTransaction (next_tx_id s) (game_id g) (part_id buyer) (part_id seller)
                            (order_player o) (price o) q in
    let os := update_first (by_oid oid) (reduce_order q) (orders s) in
    (* db.session.commit(): Transaction.price is NOT NULL and the buyer's
       share count must fit a SQLite INTEGER *)
    if PrimFloat.is_nan (price o) || negb (int64_ok bought) then None
    else Some (mkState (games s) ps2 hs2 os (transactions s ++ [tx]) nh (next_order_id s)
                       (next_tx_id s + 1))
  | _, _ => None
  end.

Definition execute_order (s : State) (tok : string) (oid : Z) (qarg : option Z)
    : Resp * State :=
  match participant_by_token s tok with
  | None => (RErr EInvalidToken, s)
  | Some p =>
    match order_get s oid with
    | None => (RErr EOrderNotAvailable, s)
    | Some o =>
      if negb (String.eqb (order_status o) "open") then (RErr EOrderNotAvailable, s) else
      if String.eqb (order_part o) (part_id p) then (RErr ESelfTrade, s) else
      match game_get s (part_game p) with
      | None => (RErr ECrash, s)
      | Some g =>
        if String.eqb (game_status g) "ended" then (RErr EGameEnded, s) else
        let q := resolve_qty qarg o in
        if q <=? 0 then (RErr EInvalidNumberOfShares, s) else
        if order_shares o <? q then (RErr EOrderTooSmall, s) else
        let creator := participant_get s (order_part o) in
        (* total_cost = order.price * shares_to_execute, first in both branches *)
        match float_of_int q with
        | None => (RErr ECrash, s)
        | Some fq =>
        let total := (price o * fq)%float in
        let finish (r : option State) :=
          match r with Some s' => (ROk, s') | None => (RErr ECrash, s) end in
        if String.eqb (order_type o) "sell" then
          (* someone is selling, the participant is buying *)
          match cash p with
          | None => (RErr ECrash, s)
          | Some b =>
            if (b <? total)%float then (RErr ENotEnoughCash, s) else
            match creator with
            | None => (RErr ECrash, s)
            | Some seller =>
              match holding_first s (part_id seller) (order_player o) with
              | Some h =>
                if hold_shares h <? q then (RErr ESellerNoLongerHasShares, cancel_in oid s)
                else finish (settle s g oid o p seller q total)
              | None => (RErr ESellerNoLongerHasShares, cancel_in oid s)
              end
            end
          end
        else
          (* someone wants to buy, the participant is selling *)
          match holding_first s (part_id p) (order_player o) with
          | None => (RErr ENotEnoughShares, s)
          | Some h =>
            if hold_shares h <? q then (RErr ENotEnoughShares, s) else
            match creator with
            | None => (RErr ECrash, s)
            | Some buyer =>
              match cash buyer with
              | None => (RErr ECrash, s)
              | Some b =>
                if (b <? total)%float then (RErr EBuyerNoLongerHasCash, cancel_in oid s)
                else finish (settle s g oid o buyer p q total)
              end
            end
          end
        end
      end
    end
  end.

(** *** [cancel_order] and [cancel_all_orders] *)

Definition cancel_order (s : State) (tok : string) (oid : Z) : Resp * State :=
  match participant_by_token s tok with
  | None => (RErr EInvalidToken, s)
  | Some p =>
    match order_get s oid with
    | None => (RErr EOrderNotFound, s)
    | Some o =>
      if negb (String.eqb (order_part o) (part_id p)) then (RErr EOrderNotFound, s) else
      if negb (String.eqb (order_status o) "open") then (RErr EOrderCannotBeCancelled, s)
      else (ROk, cancel_in oid s)
    end
  end.

Definition cancel_all_sel (pid otype : string) (o : Order) : bool :=
  String.eqb (order_part o) pid && String.eqb (order_status o) "open"
  && (if String.eqb otype "buy" || String.eqb otype "sell"
      then String.eqb (order_type o) otype else true).

Definition cancel_matching (sel : Order -> bool) (os : list Order) : list Order :=
  map (fun o => if sel o then set_order_status "cancelled" o else o) os.

Definition cancel_all_orders (s : State) (tok otype : string) : Resp * State :=
  match participant_by_token s tok with
  | None => (RErr EInvalidToken, s)
  | Some p =>
    let sel := cancel_all_sel (part_id p) otype in
    let count := Z.of_nat (length (filter sel (orders s))) in
    (RCount count, set_orders (cancel_matching sel (orders s)) (next_order_id s) s)
  end.

(** *** [end_game] *)

Definition holdings_of (s : State) (pid : string) : list Holding :=
  filter (fun h => String.eqb (hold_part h) pid) (holdings s).

(** [outright_winner]: [if shares > max_shares] on ints, from [-1]. *)
Definition pick_winner (value : Participant -> Z) (ps : list Participant)
    : option Participant :=
  snd (fold_left (fun acc q => let v := value q in
                    if fst acc <? v then (v, Some q) else acc)
                 ps (-1, None)).

Definition outright_value (s : State) (winning_player : string) (p : Participant) : Z :=
  held_shares s (part_id p) winning_player.

(** The other modes: [if total_value > max_value] on floats, from [-1]
    (an int, compared exactly); [None] when a value raised. *)
Definition pick_winner_f (value : Participant -> option float) (ps : list Participant)
    : option (option Participant) :=
  option_map snd
    (fold_left (fun acc q =>
                  match acc, value q with
                  | Some (m, w), Some v => if (m <? v)%float then Some (v, Some q) else Some (m, w)
                  | _, _ => None
                  end)
               ps (Some ((-1)%float, None))).

(** [total_value = 0; for holding in p.holdings: total_value += holding.shares
    * float(score)], then [+= p.cash] if [include_cash] (a NULL cash raises
    [TypeError]). The int [0] plus a float is that float added to [0.0]. *)
Definition holdings_value (s : State) (p : Participant) (score : string -> Z)
    (g : Game) : option float :=
  let total :=
    fold_left (fun acc h =>
                 match acc, float_of_int (hold_shares h), float_of_int (score (hold_player h)) with
                 | Some t, Some fsh, Some sc => Some (t + fsh * sc)%float
                 | _, _, _ => None
                 end)
              (holdings_of s (part_id p)) (Some 0%float) in
  if include_cash g then
    match total, cash p with
    | Some t, Some c => Some (t + c)%float
    | _, _ => None
    end
  else total.

Definition final_points_value (s : State) (g : Game) (final_scores : list (string * Z))
    (p : Participant) : option float :=
  holdings_value s p (fun name => assoc_get name final_scores 0) g.

Definition top_positions_value (s : State) (g : Game) (pv : list (string * Z))
    (final_positions : list (string * string)) (p : Participant) : option float :=
  holdings_value s p
    (fun name => assoc_get (assoc_get name final_positions "999"%string) pv 0) g.

Definition end_game (s : State) (tok winning_player : string)
    (final_scores : list (string * Z)) (final_positions : list (string * string))
    : Resp * State :=
  match participant_by_token s tok with
  | None => (RErr EInvalidToken, s)
  | Some p =>
    if negb (String.eqb (role p) "admin") then (RErr EForbidden, s) else
    match game_get s (part_game p) with
    | None => (RErr ECrash, s)
    | Some g =>
      if String.eqb (game_status g) "ended" then (RErr EGameAlreadyEnded, s) else
      let gid := game_id g in
      let s1 := set_orders (cancel_matching (fun o => String.eqb (order_game o) gid
                                                     && String.eqb (order_status o) "open")
                                            (orders s))
                           (next_order_id s) s in
      let players := filter (fun q => String.eqb (part_game q) gid
                                      && String.eqb (role q) "player")
                            (participants s1) in
      let finish (w : option Participant) (fs : option (list (string * Z))) :=
        let wid := option_map part_id w in
        (RWinner (option_map part_name w),
         set_games (update_first (by_gid gid) (set_game_end wid fs) (games s1)) s1) in
      let finish_f (w : option (option Participant)) (fs : option (list (string * Z))) :=
        match w with Some w => finish w fs | None => (RErr ECrash, s) end in
      if String.eqb (scoring_mode g) "outright_winner" then
        finish (pick_winner (outright_value s1 winning_player) players)
               (game_final_scores g)
      else if String.eqb (scoring_mode g) "final_points" then
        finish_f (pick_winner_f (final_points_value s1 g final_scores) players)
                 (Some final_scores)
      else if String.eqb (scoring_mode g) "top_positions" then
        match position_values g with
        | None => (RErr ECrash, s)
        | Some pv =>
          finish_f (pick_winner_f (top_positions_value s1 g pv final_positions) players)
                   (game_final_scores g)
        end
      else finish None (game_final_scores g)
    end
  end.

(** *** Operations *)

Inductive Op :=
  | OpPlace (tok otype pname : string) (pr : float) (shares : Z)
  | OpExecute (tok : string) (oid : Z) (qarg : option Z)
  | OpCancel (tok : string) (oid : Z)
  | OpCancelAll (tok otype : string)
  | OpEndGame (tok winning_player : string) (final_scores : list (string * Z))
              (final_positions : list (string * string)).

Definition run (s : State) (op : Op) : Resp * State :=
  match op with
  | OpPlace tok ot pn pr sh => place_order s tok ot pn pr sh
  | OpExecute tok oid qarg => execute_order s tok oid qarg
  | OpCancel tok oid => cancel_order s tok oid
  | OpCancelAll tok ot => cancel_all_orders s tok ot
  | OpEndGame tok wp fs fp => end_game s tok wp fs fp
  end.






Definition total_shares (s : State) (e : string) : Z :=
  sum_Z (map (entity_measure e) (holdings s)).

End FloatModel.

Module FloatModelFacts.
Import FloatSign FloatModel.
















(** *** Orders changed by cancellation only *)

Definition only_cancels (os os' : list Order) : Prop :=
  Forall2 (fun o o' => o' = o \/ o' = set_order_status "cancelled" o) os os'.

Lemma only_cancels_refl_f os : only_cancels os os.
Proof. induction os; constructor; auto. Qed.

Lemma only_cancels_update_first_f p os :
  only_cancels os (update_first p (set_order_status "cancelled") os).
Proof.
  induction os as [|a os IH]; simpl; [constructor|].
  destruct (p a); constructor.
  - now right.
  - apply only_cancels_refl_f.
  - now left.
  - exact IH.
Qed.

Lemma only_cancels_matching_f sel os : only_cancels os (cancel_matching sel os).
Proof.
  induction os as [|a os IH]; simpl; constructor; auto.
  destruct (sel a); [now right|now left].
Qed.


Section CancelsF.
Variable P : Order -> bool.
Hypothesis HP : forall x, P (set_order_status "cancelled" x) = false.

Lemma only_cancels_sum_f (m : Order -> Z) os os' :
  only_cancels os os' -> (forall o, In o os -> 0 <= m o) ->
  sum_Z (map m (filter P os')) <= sum_Z (map m (filter P os)).
Proof.
  induction 1 as [|x x' l l' Hx Hl IH]; simpl; [lia|]. intros Hnn.
  assert (IH' := IH (fun o Ho => Hnn o (or_intror Ho))).
  assert (0 <= m x) by (apply Hnn; simpl; auto).
  destruct Hx as [->| ->].
  - destruct (P x); simpl; lia.
  - rewrite HP. destruct (P x); simpl; lia.
Qed.

Lemma only_cancels_existsb_f os os' :
  only_cancels os os' -> existsb P os' = true -> existsb P os = true.
Proof.
  induction 1 as [|x x' l l' Hx Hl IH]; simpl; auto.
  intros H. apply orb_true_iff in H as [H|H].
  - destruct Hx as [->| ->]; [now rewrite H|]. now rewrite HP in H.
  - now rewrite IH, orb_true_r.
Qed.

End CancelsF.

(** *** Balances *)















(** *** Available shares *)

Definition is_open_of (pid : string) (o : Order) : bool :=
  String.eqb (order_part o) pid && String.eqb (order_status o) "open".

Definition has_open_orders (s : State) (pid : string) : bool :=
  existsb (is_open_of pid) (orders s).

(** availableShares(p, e) >= 0 for every participant with an open order. *)
Definition shares_ok (s : State) : Prop :=
  forall p, In p (participants s) -> has_open_orders s (part_id p) = true ->
  forall e, 0 <= available_shares s (part_id p) e.

Definition is_execute (op : Op) : bool :=
  match op with OpExecute _ _ _ => true | _ => false end.

Lemma is_open_sell_cancelled_f pid name x :
  is_open_sell pid name (set_order_status "cancelled" x) = false.
Proof. unfold is_open_sell. simpl. now rewrite andb_false_r. Qed.

Lemma is_open_of_cancelled_f pid x : is_open_of pid (set_order_status "cancelled" x) = false.
Proof. unfold is_open_of. simpl. now rewrite andb_false_r. Qed.

Lemma shares_set_orders s os' no :
  (forall o, In o (orders s) -> 0 <= order_shares o) ->
  only_cancels (orders s) os' -> shares_ok s -> shares_ok (set_orders os' no s).
Proof.
  intros Hnn Hc Hok p Hp Hopen e.
  assert (Hopen' := only_cancels_existsb_f _ (is_open_of_cancelled_f _) _ _ Hc Hopen).
  specialize (Hok p Hp Hopen' e).
  unfold available_shares, committed_shares, open_sell_orders, held_shares, holding_first in *.
  simpl.
  assert (sum_Z (map order_shares (filter (is_open_sell (part_id p) e) os'))
          <= sum_Z (map order_shares (filter (is_open_sell (part_id p) e) (orders s)))).
  { apply (only_cancels_sum_f _ (is_open_sell_cancelled_f (part_id p) e)); auto. }
  lia.
Qed.

Lemma no_open_committed_f s pid :
  has_open_orders s pid = false -> forall e, committed_shares s pid e = 0.
Proof.
  unfold has_open_orders, committed_shares, open_sell_orders. intros H e.
  induction (orders s) as [|a l IH]; simpl in *; [auto|].
  apply orb_false_iff in H as [Ha Hl].
  unfold is_open_of in Ha. unfold is_open_sell.
  destruct (String.eqb (order_part a) pid); destruct (String.eqb (order_status a) "open");
    simpl in *; rewrite ?andb_false_r; auto. discriminate.
Qed.

Lemma available_shares_nonneg_f s p :
  (forall h, In h (holdings s) -> 0 <= hold_shares h) ->
  shares_ok s -> In p (participants s) ->
  forall e, 0 <= available_shares s (part_id p) e.
Proof.
  intros Hh Hok Hp e.
  destruct (has_open_orders s (part_id p)) eqn:Ho; [now apply Hok|].
  unfold available_shares. rewrite (no_open_committed_f _ _ Ho e).
  unfold held_shares. destruct (holding_first s (part_id p) e) eqn:H; [|lia].
  apply find_In_true in H as [H _]. specialize (Hh h H). lia.
Qed.

Lemma open_sell_orders_insert s o pid e :
  open_sell_orders (insert_order s o) pid e
  = open_sell_orders s pid e ++ (if is_open_sell pid e o then [o] else []).
Proof.
  unfold open_sell_orders, insert_order. simpl. rewrite filter_app. reflexivity.
Qed.

Lemma open_buy_orders_insert s o pid :
  open_buy_orders (insert_order s o) pid
  = open_buy_orders s pid ++ (if is_open_buy pid o then [o] else []).
Proof.
  unfold open_buy_orders, insert_order. simpl. rewrite filter_app. reflexivity.
Qed.

Lemma available_shares_insert s o pid e :
  available_shares (insert_order s o) pid e
  = available_shares s pid e - (if is_open_sell pid e o then order_shares o else 0).
Proof.
  unfold available_shares, committed_shares. rewrite open_sell_orders_insert.
  rewrite map_app, sum_Z_app. unfold held_shares, holding_first. simpl.
  destruct (is_open_sell pid e o); simpl; lia.
Qed.

Lemma shares_insert s o :
  (forall h, In h (holdings s) -> 0 <= hold_shares h) ->
  shares_ok s ->
  (forall e, is_open_sell (order_part o) e o = true ->
             order_shares o <= available_shares s (order_part o) e) ->
  shares_ok (insert_order s o).
Proof.
  intros Hh Hok Hsell q Hq Hopen e. simpl in Hq.
  rewrite available_shares_insert.
  pose proof (available_shares_nonneg_f s q Hh Hok Hq e) as Ha.
  destruct (is_open_sell (part_id q) e o) eqn:B; [|lia].
  assert (Hown : order_part o = part_id q).
  { unfold is_open_sell in B. bool_facts. auto. }
  rewrite <- Hown in B |- *. specialize (Hsell e B). lia.
Qed.

Lemma place_order_shares s tok ot pn pr sh :
  (forall h, In h (holdings s) -> 0 <= hold_shares h) ->
  shares_ok s -> shares_ok (snd (place_order s tok ot pn pr sh)).
Proof.
  intros Hh Hok. unfold place_order. split_goal_paths; simpl; auto; bool_facts; subst;
    apply shares_insert; auto; simpl; intros e B;
    unfold is_open_sell in B; simpl in B; bool_facts; subst; try discriminate; lia.
Qed.

(** C2 (as the code does it), for shares: placing, cancelling, cancelling
    all and ending the game keep availableShares(p, e) >= 0 for every
    participant with an open order. *)
Theorem run_keeps_available_shares s op :
  is_execute op = false ->
  (forall h, In h (holdings s) -> 0 <= hold_shares h) ->
  (forall o, In o (orders s) -> 0 <= order_shares o) ->
  shares_ok s -> shares_ok (snd (run s op)).
Proof.
  intros Hex Hh Hnn Hok. destruct op; simpl in *; try discriminate.
  - now apply place_order_shares.
  - unfold cancel_order. split_goal_paths; simpl; auto.
    apply shares_set_orders; auto using only_cancels_update_first_f.
  - unfold cancel_all_orders. split_goal_paths; simpl; auto.
    apply shares_set_orders; auto using only_cancels_matching_f.
  - unfold end_game. split_goal_paths; simpl; auto;
      apply shares_set_orders; auto using only_cancels_matching_f.
Qed.


(** *** [place_order] checks before inserting *)

Lemma int64_ok_range n : 0 < n < 2 ^ 63 -> int64_ok n = true.
Proof.
  intros H. unfold int64_ok. apply andb_true_iff.
  split; [apply Z.leb_le | apply Z.ltb_lt]; lia.
Qed.

(** C7: on an active game, with a price that is a positive number and a
    quantity in range, [place_order] answers a sell order by comparing the
    quantity with availableShares taken before the insertion, and a buy order
    by comparing price*quantity with availableCash taken before the insertion;
    only the accepted order counts afterwards. A participant whose holding of
    an entity is entirely committed in one open sell order cannot place
    another sell order for it (Scenario B). *)
Theorem place_order_checks_before_insert s tok p g pn pr sh :
  participant_by_token s tok = Some p ->
  game_get s (part_game p) = Some g ->
  game_status g <> "ended"%string ->
  (pr <=? 0)%float = false -> PrimFloat.is_nan pr = false ->
  0 < sh < 2 ^ 63 ->
  place_order s tok "sell" pn pr sh =
    (if available_shares s (part_id p) pn <? sh then (RErr ENotEnoughShares, s)
     else (ROrderId (next_order_id s),
           insert_order s (mkOrder (next_order_id s) (game_id g) (part_id p)
                                   "sell" pn pr sh "open"))) /\
  (forall fsh avail,
     float_of_int sh = Some fsh -> available_cash s p = Some avail ->
     place_order s tok "buy" pn pr sh =
       (if (avail <? pr * fsh)%float then (RErr ENotEnoughCash, s)
        else (ROrderId (next_order_id s),
              insert_order s (mkOrder (next_order_id s) (game_id g) (part_id p)
                                      "buy" pn pr sh "open")))) /\
  available_shares
    (insert_order s (mkOrder (next_order_id s) (game_id g) (part_id p) "sell" pn pr sh "open"))
    (part_id p) pn = available_shares s (part_id p) pn - sh /\
  open_buy_orders
    (insert_order s (mkOrder (next_order_id s) (game_id g) (part_id p) "buy" pn pr sh "open"))
    (part_id p)
  = open_buy_orders s (part_id p)
    ++ [mkOrder (next_order_id s) (game_id g) (part_id p) "buy" pn pr sh "open"] /\
  (forall h o,
     (forall o', In o' (orders s) -> 0 <= order_shares o') ->
     holding_first s (part_id p) pn = Some h ->
     In o (open_sell_orders s (part_id p) pn) ->
     order_shares o = hold_shares h ->
     place_order s tok "sell" pn pr sh = (RErr ENotEnoughShares, s)).
Proof.
  intros Hp Hg Hact Hpr Hnan Hsh.
  assert (Hplace : forall ot, place_order s tok ot pn pr sh =
    (let commit := (ROrderId (next_order_id s),
                    insert_order s (mkOrder (next_order_id s) (game_id g) (part_id p)
                                            ot pn pr sh "open")) in
     if String.eqb ot "sell" then
       if available_shares s (part_id p) pn <? sh then (RErr ENotEnoughShares, s) else commit
     else if String.eqb ot "buy" then
       match float_of_int sh, available_cash s p with
       | Some fsh, Some avail =>
           if (avail <? pr * fsh)%float then (RErr ENotEnoughCash, s) else commit
       | _, _ => (RErr ECrash, s)
       end
     else (RErr EInvalidOrderType, s))).
  { intros ot. unfold place_order. rewrite Hp, Hg.
    destruct (String.eqb_spec (game_status g) "ended"); [contradiction|].
    rewrite Hpr. replace (sh <=? 0) with false by (symmetry; apply Z.leb_gt; lia).
    rewrite Hnan, (int64_ok_range _ Hsh). reflexivity. }
  split; [|split; [|split; [|split]]].
  - rewrite Hplace. reflexivity.
  - intros fsh avail Hf Ha. rewrite Hplace. simpl. rewrite Hf, Ha. reflexivity.
  - rewrite available_shares_insert. unfold is_open_sell. simpl.
    rewrite !String.eqb_refl. reflexivity.
  - rewrite open_buy_orders_insert. unfold is_open_buy. simpl.
    rewrite !String.eqb_refl. reflexivity.
  - intros h o Hnn Hh Ho Heq.
    assert (Hle : order_shares o <= committed_shares s (part_id p) pn).
    { apply sum_Z_nonneg_le; auto.
      intros y Hy. apply filter_In in Hy as [Hy _]. auto. }
    rewrite Hplace. simpl.
    destruct (Z.ltb_spec (available_shares s (part_id p) pn) sh); auto.
    unfold available_shares, held_shares in *. rewrite Hh in *. lia.
Qed.

End FloatModelFacts.

Module FloatModelExamples.
Import FloatSign FloatModel FloatModelFacts.
Local Open Scope string_scope.

Definition gF : Game := mkGame "g" "active" "X" "final_points" true None None None.

(** Rounding in the buy check: pR has 3 + 2^-51 cash and an open buy order
    of 1 at 2^-51 x 1.5, so availableCash is 3 after rounding. *)
Definition pR := mkParticipant "pR" "g" "R" "player" "tokR" (Some 0x1.8000000000001p+1%float).
Definition sR := mkState [gF] [pR] [] [mkOrder 1 "g" "pR" "buy" "X" 0x1.8p-51%float 1 "open"] [] 1 2 1.




(** Scenario B: Y holds 5 Bob and sells all 5 at 3. *)
Definition pY := mkParticipant "pY" "g" "Y" "player" "tokY" (Some 0%float).
Definition sB := mkState [gF] [pY] [mkHolding 1 "pY" "Bob" 5]
   [mkOrder 1 "g" "pY" "sell" "Bob" 3%float 5 "open"] [] 2 2 1.


Lemma sR_orders_nonneg : forall o, In o (orders sR) -> 0 <= order_shares o.
Proof. intros o [<-|[]]. simpl. lia. Qed.

Lemma sR_shares_ok : shares_ok sR.
Proof.
  intros p [<-|[]] _ e.
  assert (Hb : is_open_sell "pR" e (mkOrder 1 "g" "pR" "buy" "X" 0x1.8p-51%float 1 "open")
               = false).
  { unfold is_open_sell. change (String.eqb (order_type _) "sell") with false.
    now rewrite andb_false_r, andb_false_l. }
  unfold available_shares, committed_shares, open_sell_orders, held_shares, holding_first.
  change (orders sR) with [mkOrder 1 "g" "pR" "buy" "X" 0x1.8p-51%float 1 "open"].
  change (holdings sR) with (@nil Holding). change (part_id pR) with "pR".
  cbn [filter find map sum_Z]. rewrite Hb. simpl. lia.
Qed.

(** C2 fails for cash: availableCash(pR) is 3 before, the buy check of 3 x 1
    passes, and afterwards availableCash(pR) is -2^-51. *)
Lemma place_order_overdraws_available_cash :
  has_open_orders sR "pR" = true /\
  available_cash sR pR = Some 3%float /\
  fst (place_order sR "tokR" "buy" "X" 3%float 1) = ROrderId 2 /\
  has_open_orders (snd (place_order sR "tokR" "buy" "X" 3%float 1)) "pR" = true /\
  available_cash (snd (place_order sR "tokR" "buy" "X" 3%float 1)) pR
    = Some (-0x1p-51)%float.
Proof. vm_compute. repeat split. Qed.

Lemma run_keeps_available_shares_witness :
  is_execute (OpPlace "tokR" "buy" "X" 3%float 1) = false /\
  (forall h, In h (holdings sR) -> 0 <= hold_shares h) /\
  (forall o, In o (orders sR) -> 0 <= order_shares o) /\
  shares_ok sR /\
  shares_ok (snd (run sR (OpPlace "tokR" "buy" "X" 3%float 1))).
Proof.
  assert (Hh : forall h, In h (holdings sR) -> 0 <= hold_shares h) by (intros h []).
  split; [reflexivity|]. split; [exact Hh|]. split; [exact sR_orders_nonneg|].
  split; [exact sR_shares_ok|].
  apply run_keeps_available_shares;
    [reflexivity | exact Hh | exact sR_orders_nonneg | exact sR_shares_ok].
Defined.





Lemma place_order_checks_before_insert_witness :
  participant_by_token sB "tokY" = Some pY /\
  game_get sB (part_game pY) = Some gF /\
  game_status gF <> "ended" /\
  (3 <=? 0)%float = false /\ PrimFloat.is_nan 3 = false /\ 0 < 1 < 2 ^ 63 /\
  place_order sB "tokY" "sell" "Bob" 3%float 1 = (RErr ENotEnoughShares, sB).
Proof.
  assert (Hp : participant_by_token sB "tokY" = Some pY) by reflexivity.
  assert (Hg : game_get sB (part_game pY) = Some gF) by reflexivity.
  assert (Ha : game_status gF <> "ended") by discriminate.
  assert (Hr : 0 < 1 < 2 ^ 63) by lia.
  split; [exact Hp|]. split; [exact Hg|]. split; [exact Ha|].
  split; [reflexivity|]. split; [reflexivity|]. split; [exact Hr|].
  destruct (place_order_checks_before_insert sB "tokY" pY gF "Bob" 3%float 1
              Hp Hg Ha eq_refl eq_refl Hr) as (_ & _ & _ & _ & HB).
  apply (HB (mkHolding 1 "pY" "Bob" 5) (mkOrder 1 "g" "pY" "sell" "Bob" 3%float 5 "open")).
  - intros o [<-|[]]. simpl. lia.
  - reflexivity.
  - left. reflexivity.
  - reflexivity.
Defined.

End FloatModelExamples.
